(** * Worker activity detection: dataset builder, trainer and inference loops

    A shallow embedding of the algorithmic parts of the repository:
    - [Preprocessing]: [load_data] of preprocessing.py;
    - [TrainModel]: the cross-validation script train_model.py;
    - [Inference]: the per-frame classification shared by the pages;
    - [LiveVideo]: [LiveVideoPage.update_frame] of livevideo.py;
    - [Mp4Video]: [VideoProcessor.run] and the playback methods of
      [MP4VideoPage] of mp4video.py.

    Third-party code (the file system, OpenCV, NumPy, scikit-learn, Keras,
    joblib) is not embedded: its functions are the fields of the records
    [World], [Sklearn] and [Libs], and a call that may raise returns an
    [option] or a small result type.  Of Qt only the slider matters to the
    counters; [QSlider] models its value and its [valueChanged] signal.

    The definitions come first, module by module; the properties follow
    from "Properties of the dataset builder" on. *)

From Stdlib Require Import List ZArith String Ascii Bool Lia Arith QArith.
Import ListNotations.

Local Open Scope string_scope.
Local Open Scope list_scope.

(** [length] is the length of a list throughout. *)
Local Abbreviation length := List.length (only parsing).

(* ================================================================== *)
(** * Python string operations used by the sources *)
(* ================================================================== *)

Module PyStr.

(** [sub in s] on Python strings. *)
Fixpoint contains (sub s : string) : bool :=
  String.prefix sub s ||
  match s with
  | EmptyString => false
  | String _ s' => contains sub s'
  end.

(** [s.endswith(suf)]. *)
Fixpoint endswith (suf s : string) : bool :=
  String.eqb s suf ||
  match s with
  | EmptyString => false
  | String _ s' => endswith suf s'
  end.

(** [s.endswith((suf1, suf2, ...))]: any of the suffixes. *)
Definition endswith_any (sufs : list string) (s : string) : bool :=
  existsb (fun suf => endswith suf s) sufs.

(** [str.lower] restricted to ASCII: the letters A-Z are mapped to a-z and
    every other byte is kept.  It is the instance used in the concrete
    scenarios; the builder itself is stated for any lowering function. *)
Definition ascii_lower (c : ascii) : ascii :=
  let n := nat_of_ascii c in
  if (65 <=? n)%nat && (n <=? 90)%nat then ascii_of_nat (n + 32) else c.

Fixpoint lower (s : string) : string :=
  match s with
  | EmptyString => EmptyString
  | String c s' => String (ascii_lower c) (lower s')
  end.

(** [sub] occurs in [s]: what [contains] decides. *)
Definition substring_of (sub s : string) : Prop :=
  exists a b, s = String.append a (String.append sub b).

(** [suf] is a suffix of [s]: what [endswith] decides. *)
Definition ends_with (suf s : string) : Prop :=
  exists stem, s = String.append stem suf.

End PyStr.

(** [subseq l1 l2]: [l1] is [l2] with some elements left out, the order
    kept. *)
Inductive subseq {A : Type} : list A -> list A -> Prop :=
| subseq_nil : subseq [] []
| subseq_skip (x : A) (l1 l2 : list A) : subseq l1 l2 -> subseq l1 (x :: l2)
| subseq_keep (x : A) (l1 l2 : list A) : subseq l1 l2 -> subseq (x :: l1) (x :: l2).

(* ================================================================== *)
(** * preprocessing.py: the dataset builder *)
(* ================================================================== *)

Module Preprocessing.

Definition idle_classes : list string :=
  [ "writing_on_a_book"; "reading"; "drinking"; "sleeping";
    "talking_on_phone"; "smoking"; "brushing_teeth" ].

Definition active_classes : list string :=
  [ "fixing_a_car"; "playing_guitar"; "cleaning_floor";
    "cooking"; "riding_bike"; "running"; "cutting_vegetables";
    "using_computer"; "hammering"; "pouring_liquid" ].

(** What a path names in the file system: [os.path.exists] is false on
    [Missing]; [os.listdir] returns the entries of a [Directory] and raises
    on a [RegularFile]. *)
Inductive path_kind :=
| Missing
| RegularFile
| Directory (entries : list string).

(** Outcome of [cv2.imread]: it returns [None] for a file it cannot decode,
    and the call sits in a [try] that also catches a raising decoder. *)
Inductive imread_result (Image : Type) :=
| ImreadRaises
| ImreadNone
| ImreadOk (img : Image).
Arguments ImreadRaises {Image}.
Arguments ImreadNone {Image}.
Arguments ImreadOk {Image} img.

(** The operating system and the libraries the builder calls. *)
Record World := {
  Image : Type;
  (** [str.lower] *)
  lower : string -> string;
  (** the file system, by path *)
  fs : string -> path_kind;
  (** [os.path.join] *)
  path_join : string -> string -> string;
  (** [cv2.imread] on a path *)
  imread : string -> imread_result Image;
  (** [cv2.resize img (n, n)]; [None] when OpenCV raises (caught by the
      [except Exception] of the loop) *)
  resize : Image -> Z -> option Image
}.

Section Builder.
Context (W : World).

(** [any(c in img_file.lower() for c in vocabulary)] *)
Definition any_in (vocabulary : list string) (img_file : string) : bool :=
  existsb (fun c => PyStr.contains c (lower W img_file)) vocabulary.

(** The lowercased file name contains a string of the vocabulary. *)
Definition in_vocabulary (vocabulary : list string) (img_file : string) : Prop :=
  exists c, In c vocabulary /\ PyStr.substring_of c (lower W img_file).

(** The [if / elif / else: continue] of the loop body: [Some label], or
    [None] when the file is skipped. *)
Definition label_of (img_file : string) : option Z :=
  if any_in idle_classes img_file then Some 0%Z
  else if any_in active_classes img_file then Some 1%Z
  else None.

(** One iteration of [for img_file in image_files] on the accumulators
    [X] and [y]. *)
Definition load_step (dataset_dir : string) (img_size : Z)
    (acc : list (Image W) * list Z) (img_file : string)
  : list (Image W) * list Z :=
  match label_of img_file with
  | None => acc
  | Some label =>
      match imread W (path_join W dataset_dir img_file) with
      | ImreadOk img =>
          match resize W img img_size with
          | Some img' => (fst acc ++ [img'], snd acc ++ [label])
          | None => acc
          end
      | ImreadNone => acc
      | ImreadRaises => acc
      end
  end.

Definition load_loop (dataset_dir : string) (img_size : Z)
    (image_files : list string) (acc : list (Image W) * list Z)
  : list (Image W) * list Z :=
  fold_left (load_step dataset_dir img_size) image_files acc.

(** The listing filter of line 27. *)
Definition is_image_file (f : string) : bool :=
  PyStr.endswith_any [".jpg"; ".jpeg"; ".png"] (lower W f).

(** [load_data(dataset_dir, img_size)]; [None] stands for an exception
    that leaves the function ([os.listdir] on something that is not a
    directory). *)
Definition load_data (dataset_dir : string) (img_size : Z)
  : option (list (Image W) * list Z) :=
  match fs W dataset_dir with
  | Missing => Some ([], [])
  | RegularFile => None
  | Directory entries =>
      let image_files := filter is_image_file entries in
      match image_files with
      | [] => Some ([], [])
      | _ => Some (load_loop dataset_dir img_size image_files ([], []))
      end
  end.

(** The builder stores [label] for the file [f]: whenever [f] decodes and
    resizes to [r], the iteration on [f] appends [r] to [X] and [label] to
    [y]; the loop over a listing that contains [f] returns [r] and [label]
    at the same place, between what it returns for the files before and for
    the files after; and so does [load_data] on a directory whose image
    files are that listing. *)
Definition stores_label (f : string) (label : Z) : Prop :=
  forall dataset_dir img_size img r,
    imread W (path_join W dataset_dir f) = ImreadOk img ->
    resize W img img_size = Some r ->
    (forall acc,
        load_step dataset_dir img_size acc f
        = (fst acc ++ [r], snd acc ++ [label])) /\
    (forall before after,
        load_loop dataset_dir img_size (before ++ f :: after) ([], [])
        = (fst (load_loop dataset_dir img_size before ([], []))
             ++ r :: fst (load_loop dataset_dir img_size after ([], [])),
           snd (load_loop dataset_dir img_size before ([], []))
             ++ label :: snd (load_loop dataset_dir img_size after ([], [])))) /\
    (forall entries before after,
        fs W dataset_dir = Directory entries ->
        filter is_image_file entries = before ++ f :: after ->
        load_data dataset_dir img_size
        = Some (fst (load_loop dataset_dir img_size before ([], []))
                  ++ r :: fst (load_loop dataset_dir img_size after ([], [])),
                snd (load_loop dataset_dir img_size before ([], []))
                  ++ label :: snd (load_loop dataset_dir img_size after ([], [])))).

(** [x] is the file [f] of the directory, decoded and resized. *)
Definition decoded_as (dataset_dir : string) (img_size : Z)
    (f : string) (x : Image W) : Prop :=
  exists img, imread W (path_join W dataset_dir f) = ImreadOk img /\
              resize W img img_size = Some x.

(** The [__main__] block (lines 61-70): [None] when [load_data] raises,
    [Some (Some (X, y))] when the archive
    dataset/stanford40_idle_active.npz is written with these arrays, and
    [Some None] when nothing is written. *)
Definition dataset_path : string := "dataset/Standford40/JPEGImages".

Definition main : option (option (list (Image W) * list Z)) :=
  match load_data dataset_path 128 with
  | None => None
  | Some (X, y) =>
      if (0 <? length X)%nat then Some (Some (X, y)) else Some None
  end.

End Builder.

(** A concrete world for the end-to-end scenario: a directory
    ["data"] with three decodable images, one that does not decode, one
    whose decoder raises and one entry that is not an image.  Images are
    modelled by their (height, width). *)
Definition demo_world : World := {|
  Image := Z * Z;
  lower := PyStr.lower;
  fs := fun p =>
    if String.eqb p "data" then
      Directory [ "reading_01.jpg"; "running_02.jpg"; "unknown_03.jpg";
                  "Cooking_04.PNG"; "sleeping_05.jpeg"; "notes.txt" ]
    else if String.eqb p "empty" then Directory [ "notes.txt" ]
    else if String.eqb p "file.bin" then RegularFile
    else Missing;
  path_join := fun d f => String.append d (String.append "/" f);
  imread := fun p =>
    if String.eqb p "data/Cooking_04.PNG" then ImreadNone
    else if String.eqb p "data/sleeping_05.jpeg" then ImreadRaises
    else ImreadOk (480, 640)%Z;
  resize := fun _ n => if (0 <? n)%Z then Some (n, n) else None
|}.

(** The demo directory placed where the [__main__] block looks for it. *)
Definition stanford_world : World := {|
  Image := Z * Z;
  lower := PyStr.lower;
  fs := fun p =>
    if String.eqb p dataset_path then
      Directory [ "Running_001.JPG"; "README"; "smoking_017.jpg"; "jumping_003.jpg" ]
    else Missing;
  path_join := fun d f => String.append d (String.append "/" f);
  imread := fun _ => ImreadOk (300, 400)%Z;
  resize := fun _ n => if (0 <? n)%Z then Some (n, n) else None
|}.

End Preprocessing.

(* ================================================================== *)
(** * train_model.py: cross-validation and final fit *)
(* ================================================================== *)

Module TrainModel.

(** scikit-learn and NumPy, as the script uses them.  A row of the feature
    matrix is a [Feature]; a call that raises returns [None]. *)
Record Sklearn := {
  Feature : Type;
  Clf : Type;
  Vector : Type;
  (** [StratifiedKFold(n_splits, shuffle, random_state).split(features, y)]:
      the (train_index, test_index) pairs it yields *)
  skf_split : nat -> bool -> Z -> list Feature -> list Z
              -> option (list (list nat * list nat));
  (** [LogisticRegression(max_iter).fit(X, y)] *)
  fit : Z -> list Feature -> list Z -> option Clf;
  (** [clf.predict(X)] *)
  predict : Clf -> list Feature -> list Z;
  (** [features.mean(axis=0)] *)
  mean_axis0 : list Feature -> Vector
}.

(** NumPy indexing [a[index]] with an index array; [None] for IndexError. *)
Fixpoint take_rows {A : Type} (index : list nat) (a : list A) : option (list A) :=
  match index with
  | [] => Some []
  | i :: index' =>
      match nth_error a i, take_rows index' a with
      | Some x, Some xs => Some (x :: xs)
      | _, _ => None
      end
  end.

(** Number of positions where the two label sequences agree. *)
Fixpoint matches (y_true y_pred : list Z) : nat :=
  match y_true, y_pred with
  | t :: y_true', p :: y_pred' =>
      (if Z.eqb t p then 1 else 0) + matches y_true' y_pred'
  | _, _ => 0
  end.

(** [accuracy_score(y_true, y_pred)]: the fraction of agreeing positions,
    as an exact rational for the float quotient.  [None] when the lengths
    differ (scikit-learn raises) and on empty input, where there is no
    fraction to report. *)
Definition accuracy_score (y_true y_pred : list Z) : option Q :=
  if negb (length y_true =? length y_pred)%nat then None
  else match length y_true with
       | O => None
       | S n => Some (Z.of_nat (matches y_true y_pred) # Pos.of_succ_nat n)
       end.

Section Script.
Context (L : Sklearn).

(** Body of the [for train_index, test_index in skf.split(features, y)]
    loop: the accuracy appended to [accuracies], or [None] when a call in
    the body raises. *)
Definition fold_accuracy (features : list (Feature L)) (y : list Z)
    (fold : list nat * list nat) : option Q :=
  let '(train_index, test_index) := fold in
  match take_rows train_index features, take_rows test_index features,
        take_rows train_index y, take_rows test_index y with
  | Some X_train, Some X_test, Some y_train, Some y_test =>
      match fit L 1000 X_train y_train with
      | Some clf =>
          let y_pred := predict L clf X_test in
          accuracy_score y_test y_pred
      | None => None
      end
  | _, _, _, _ => None
  end.

Fixpoint cv_loop (features : list (Feature L)) (y : list Z)
    (folds : list (list nat * list nat)) (accuracies : list Q)
  : option (list Q) :=
  match folds with
  | [] => Some accuracies
  | fold :: folds' =>
      match fold_accuracy features y fold with
      | Some acc => cv_loop features y folds' (accuracies ++ [acc])
      | None => None
      end
  end.

(** What a completed run leaves behind. *)
Record Artifacts := {
  accuracies : list Q;
  (** models/stanford40_activity_clf.pkl *)
  saved_clf : Clf L;
  (** models/feature_mean.npy *)
  saved_mean : Vector L
}.

(** The script from line 21 on, given the feature matrix and the labels;
    [None] when an exception terminates it. *)
Definition train_model (features : list (Feature L)) (y : list Z)
  : option Artifacts :=
  match skf_split L 5 true 42 features y with
  | None => None
  | Some folds =>
      match cv_loop features y folds [] with
      | None => None
      | Some accs =>
          match fit L 1000 features y with
          | None => None
          | Some clf_final =>
              Some {| accuracies := accs;
                      saved_clf := clf_final;
                      saved_mean := mean_axis0 L features |}
          end
      end
  end.

End Script.




(** A small library instance: deterministic round-robin folds, a
    classifier that remembers the first training label, features that are
    integers and a mean written as (sum, count). *)
Definition round_robin (n_splits n : nat) : list (list nat * list nat) :=
  map (fun k =>
         (filter (fun i => negb (i mod n_splits =? k)%nat) (seq 0 n),
          filter (fun i => (i mod n_splits =? k)%nat) (seq 0 n)))
      (seq 0 n_splits).

Definition toy_sklearn : Sklearn := {|
  Feature := Z;
  Clf := Z;
  Vector := Z * nat;
  skf_split := fun n_splits _ _ features _ =>
    if (n_splits <=? length features)%nat && (1 <=? n_splits)%nat
    then Some (round_robin n_splits (length features)) else None;
  fit := fun _ _ y => Some (hd 0%Z y);
  predict := fun clf X => map (fun _ => clf) X;
  mean_axis0 := fun features => (fold_right Z.add 0%Z features, length features)
|}.

(** The same library with a [fit] that, like a logistic regression,
    raises when the training labels are all equal. *)
Definition strict_sklearn : Sklearn := {|
  Feature := Z;
  Clf := Z;
  Vector := Z * nat;
  skf_split := skf_split toy_sklearn;
  fit := fun _ _ y =>
    match y with
    | [] => None
    | l :: y' => if forallb (Z.eqb l) y' then None else Some l
    end;
  predict := fun clf X => map (fun _ => clf) X;
  mean_axis0 := mean_axis0 toy_sklearn
|}.

End TrainModel.

(* ================================================================== *)
(** * The classifier globals shared by livevideo.py and mp4video.py *)
(* ================================================================== *)

Module Inference.

(** OpenCV, Keras and joblib as the pages use them.  [preprocess] is
    [cv2.resize(frame, (128, 128))], [np.expand_dims] and
    [preprocess_input]; the two loaders give what the module-level [try]
    obtains, [None] when the call raises.  The classifier is kept as the
    function [features -> clf.predict(features)[0]] and the extractor as
    [x -> feature_extractor.predict(x, verbose=0)]; [None] is a raised
    exception. *)
Record Libs := {
  Frame : Type;
  Tensor : Type;
  Features : Type;
  preprocess : Frame -> option Tensor;
  joblib_load : option (Features -> option Z);
  MobileNetV2 : option (Tensor -> option Features)
}.

(** Texts of [pred_label]. *)
Inductive pred_text :=
| Initializing        (* "Initializing..." (live page, initial) *)
| WaitingForVideo     (* "Waiting for video..." (MP4 page, initial) *)
| ActiveWorker        (* "ACTIVE WORKER" *)
| IdleWorker          (* "IDLE WORKER DETECTED" *)
| PredictionError.    (* "Prediction Error" *)

Section Globals.
Context (L : Libs).

(** Module-level [try: clf = ...; feature_extractor = ... except: both
    None]. *)
Definition clf : option (Features L -> option Z) :=
  match joblib_load L, MobileNetV2 L with
  | Some c, Some _ => Some c
  | _, _ => None
  end.

Definition feature_extractor : option (Tensor L -> option (Features L)) :=
  match joblib_load L, MobileNetV2 L with
  | Some _, Some e => Some e
  | _, _ => None
  end.

(** [features = feature_extractor.predict(x); pred = clf.predict(features)[0]] *)
Definition predict_with (c : Features L -> option Z)
    (e : Tensor L -> option (Features L)) (x : Tensor L) : option Z :=
  match e x with
  | Some features => c features
  | None => None
  end.

(** The statements inside the [try] of [update_frame] / [analyze_frame]
    up to the assignment of [pred]; [None] when one of them raises. *)
Definition try_predict (c : Features L -> option Z)
    (e : Tensor L -> option (Features L)) (frame : Frame L) : option Z :=
  match preprocess L frame with
  | Some x => predict_with c e x
  | None => None
  end.

(** The prediction the loaded globals give for a frame, when both are
    loaded and nothing raises. *)
Definition classify (frame : Frame L) : option Z :=
  match clf, feature_extractor with
  | Some c, Some e => try_predict c e frame
  | _, _ => None
  end.

Definition models_loaded : bool :=
  match clf, feature_extractor with
  | Some _, Some _ => true
  | _, _ => false
  end.

(** The frame is classified as active (prediction 1), respectively as
    idle (any other prediction). *)
Definition predicted_active (f : Frame L) : bool :=
  match classify f with Some pred => (pred =? 1)%Z | None => false end.

Definition predicted_idle (f : Frame L) : bool :=
  match classify f with Some pred => negb (pred =? 1)%Z | None => false end.

(** The last prediction obtained on a sequence of frames, if any. *)
Definition last_prediction (fs : list (Frame L)) : option Z :=
  fold_left (fun acc f => match classify f with Some pred => Some pred | None => acc end)
            fs None.

(** The status text the pages set for the outcome of a classification. *)
Definition text_of (outcome : option Z) : pred_text :=
  match outcome with
  | Some pred => if (pred =? 1)%Z then ActiveWorker else IdleWorker
  | None => PredictionError
  end.

(** The frames of a sequence that are classified without an error. *)
Definition classified_ok (fs : list (Frame L)) : list (Frame L) :=
  filter (fun f => match classify f with Some _ => true | None => false end) fs.

End Globals.

(** Frames are numbered; the stub classifier answers 1 on even features
    and 0 on odd ones, the extractor refuses frame 13 and preprocessing
    refuses negative frames. *)
Definition stub_libs : Libs := {|
  Frame := Z;
  Tensor := Z;
  Features := Z;
  preprocess := fun frame => if (frame <? 0)%Z then None else Some frame;
  joblib_load := Some (fun features => Some (if Z.even features then 1 else 0)%Z);
  MobileNetV2 := Some (fun x => if (x =? 13)%Z then None else Some x)
|}.

(** The same frames when the classifier artifact is missing. *)
Definition no_model_libs : Libs := {|
  Frame := Z;
  Tensor := Z;
  Features := Z;
  preprocess := fun frame => if (frame <? 0)%Z then None else Some frame;
  joblib_load := None;
  MobileNetV2 := Some (fun x => Some x)
|}.

End Inference.

(* ================================================================== *)
(** * livevideo.py: the live camera page *)
(* ================================================================== *)

Module LiveVideo.
Import Inference.

(** Texts of [alert_label]. *)
Inductive alert_text :=
| SystemReady         (* "System Ready" *)
| StatusNormal        (* "Status: Normal - Worker Active" *)
| AlertIdle.          (* "ALERT: Worker Idle - Action Required!" *)

Section Page.
Context (L : Libs).

(** The fields of [LiveVideoPage] the loop reads or writes.
    [active_stats] and [idle_stats] hold the numbers shown by the two
    statistics labels; [video_label] is the sequence of frames handed to
    [setPixmap], oldest first. *)
Record page := {
  cap_opened : bool;
  active_count : Z;
  idle_count : Z;
  pred_label : pred_text;
  alert_label : alert_text;
  active_stats : Z;
  idle_stats : Z;
  video_label : list (Frame L)
}.

(** [__init__] and [start_camera]; [camera] tells whether device 0 opens. *)
Definition init (camera : bool) : page := {|
  cap_opened := camera;
  active_count := 0;
  idle_count := 0;
  pred_label := Initializing;
  alert_label := SystemReady;
  active_stats := 0;
  idle_stats := 0;
  video_label := []
|}.

(** The dashboard update after a prediction (lines 333-388). *)
Definition update_dashboard (pred : Z) (s : page) : page :=
  let s' :=
    if (pred =? 1)%Z then
      {| cap_opened := cap_opened s;
         active_count := active_count s + 1;
         idle_count := idle_count s;
         pred_label := ActiveWorker;
         alert_label := StatusNormal;
         active_stats := active_stats s;
         idle_stats := idle_stats s;
         video_label := video_label s |}
    else
      {| cap_opened := cap_opened s;
         active_count := active_count s;
         idle_count := idle_count s + 1;
         pred_label := IdleWorker;
         alert_label := AlertIdle;
         active_stats := active_stats s;
         idle_stats := idle_stats s;
         video_label := video_label s |} in
  {| cap_opened := cap_opened s';
     active_count := active_count s';
     idle_count := idle_count s';
     pred_label := pred_label s';
     alert_label := alert_label s';
     active_stats := active_count s';
     idle_stats := idle_count s';
     video_label := video_label s' |}.

(** The [except] branch (lines 390-403). *)
Definition prediction_error (s : page) : page :=
  {| cap_opened := cap_opened s;
     active_count := active_count s;
     idle_count := idle_count s;
     pred_label := PredictionError;
     alert_label := alert_label s;
     active_stats := active_stats s;
     idle_stats := idle_stats s;
     video_label := video_label s |}.

(** "Show Video" (lines 405-411). *)
Definition show_video (frame : Frame L) (s : page) : page :=
  {| cap_opened := cap_opened s;
     active_count := active_count s;
     idle_count := idle_count s;
     pred_label := pred_label s;
     alert_label := alert_label s;
     active_stats := active_stats s;
     idle_stats := idle_stats s;
     video_label := video_label s ++ [frame] |}.

(** One timer tick.  [read] is what [self.cap.read()] returns at this
    tick: [Some frame] for [(True, frame)] and [None] for a failed read. *)
Definition update_frame (read : option (Frame L)) (s : page) : page :=
  if negb (cap_opened s) then s
  else
    match read with
    | None => s
    | Some frame =>
        let s1 :=
          match clf L, feature_extractor L with
          | Some c, Some e =>
              match try_predict L c e frame with
              | Some pred => update_dashboard pred s
              | None => prediction_error s
              end
          | _, _ => s
          end in
        show_video frame s1
    end.

(** The timer firing once per element of [reads]. *)
Definition run (reads : list (option (Frame L))) (s : page) : page :=
  fold_left (fun s r => update_frame r s) reads s.

Definition tally (s : page) : Z := active_count s + idle_count s.

(** [closeEvent]: the capture is released. *)
Definition closeEvent (s : page) : page :=
  {| cap_opened := false;
     active_count := active_count s;
     idle_count := idle_count s;
     pred_label := pred_label s;
     alert_label := alert_label s;
     active_stats := active_stats s;
     idle_stats := idle_stats s;
     video_label := video_label s |}.

(** The alert text set for a prediction. *)
Definition alert_of (pred : Z) : alert_text :=
  if (pred =? 1)%Z then StatusNormal else AlertIdle.

(** The frames the camera delivered in a sequence of reads. *)
Definition frames_of (reads : list (option (Frame L))) : list (Frame L) :=
  flat_map (fun r => match r with Some f => [f] | None => [] end) reads.

End Page.

Arguments cap_opened {L} _.
Arguments active_count {L} _.
Arguments idle_count {L} _.
Arguments pred_label {L} _.
Arguments alert_label {L} _.
Arguments active_stats {L} _.
Arguments idle_stats {L} _.
Arguments video_label {L} _.
Arguments tally {L} _.
Arguments closeEvent {L} _.

End LiveVideo.

(* ================================================================== *)
(** * mp4video.py: the worker thread and the file playback page *)
(* ================================================================== *)

Module Mp4Video.
Import Inference.

Local Open Scope Z_scope.

(** ** Qt's slider, as far as the page depends on it

    [QAbstractSlider] keeps its value inside [minimum, maximum] and emits
    [valueChanged] only when the stored value changes.  The setters return
    the new slider and the value carried by the signal, if it is emitted. *)
Module QSlider.

Record t := { minimum : Z; maximum : Z; value : Z }.

(** A new [QSlider]: range 0..99, value 0. *)
Definition new : t := {| minimum := 0; maximum := 99; value := 0 |}.

(** [qBound(min, v, max)] *)
Definition qBound (lo v hi : Z) : Z := Z.max lo (Z.min hi v).

Definition setValue (v : Z) (sl : t) : t * option Z :=
  let v' := qBound (minimum sl) v (maximum sl) in
  if v' =? value sl then (sl, None)
  else ({| minimum := minimum sl; maximum := maximum sl; value := v' |}, Some v').

(** [setMaximum(max)] is [setRange(qMin(minimum, max), max)], which stores
    the range and re-bounds the value. *)
Definition setMaximum (max : Z) (sl : t) : t * option Z :=
  let lo := Z.min (minimum sl) max in
  setValue (value sl) {| minimum := lo; maximum := Z.max lo max; value := value sl |}.

End QSlider.

Section Player.
Context (L : Libs).

(** ** cv2.VideoCapture on a file

    [frames] are the frames of the file in order, [frame_count] is
    CAP_PROP_FRAME_COUNT and [pos] is CAP_PROP_POS_FRAMES, the index of
    the frame the next [read] returns.  The model is that of positions
    inside the file: [cap_set_pos] stores the position it is given and a
    read outside the file fails, whereas OpenCV moves a position outside
    the file to the nearest one it can reach.  The properties below that
    name a position take it inside the file. *)
Record VideoCapture := {
  isOpened : bool;
  frames : list (Frame L);
  frame_count : Z;
  pos : Z
}.

(** [cv2.VideoCapture(path)] on a file with the given frames. *)
Definition open_file (fs : list (Frame L)) : VideoCapture :=
  {| isOpened := true; frames := fs; frame_count := Z.of_nat (length fs); pos := 0 |}.

Definition frame_at (fs : list (Frame L)) (n : Z) : option (Frame L) :=
  if n <? 0 then None else nth_error fs (Z.to_nat n).

(** [cap.read()]: the frame at [pos], advancing [pos], or a failed read. *)
Definition cap_read (c : VideoCapture) : option (Frame L) * VideoCapture :=
  if isOpened c then
    match frame_at (frames c) (pos c) with
    | Some frame =>
        (Some frame,
         {| isOpened := isOpened c; frames := frames c;
            frame_count := frame_count c; pos := pos c + 1 |})
    | None => (None, c)
    end
  else (None, c).

(** [cap.set(cv2.CAP_PROP_POS_FRAMES, n)] *)
Definition cap_set_pos (n : Z) (c : VideoCapture) : VideoCapture :=
  {| isOpened := isOpened c; frames := frames c;
     frame_count := frame_count c; pos := n |}.

(** ** VideoProcessor.run

    One emission of [frame_processed]: frame, prediction, frame number. *)
Definition emission : Type := Frame L * Z * Z.

(** The prediction emitted for a sampled frame (lines 186-204): the
    classifier's when both globals are loaded and nothing raises, 0 when
    the model is unavailable and 0 from the [except] branch. *)
Definition sampled_prediction (frame : Frame L) : Z :=
  match preprocess L frame with
  | None => 0
  | Some x =>
      match clf L, feature_extractor L with
      | Some c, Some e =>
          match predict_with L c e x with
          | Some pred => pred
          | None => 0
          end
      | _, _ => 0
      end
  end.

(** The emission for a sampled frame and its number. *)
Definition emission_of (p : Z * Frame L) : emission :=
  (snd p, sampled_prediction (snd p), fst p).

(** The [while self.is_running] loop over the frames still to be read;
    nothing in the repository clears [is_running] once the thread runs, so
    the loop ends at the first failed read. *)
Fixpoint run_loop (rest : list (Frame L)) (frame_count : Z)
    (emitted : list emission) : list emission :=
  match rest with
  | [] => emitted
  | frame :: rest' =>
      let emitted' :=
        if frame_count mod 5 =? 0
        then emitted ++ [(frame, sampled_prediction frame, frame_count)]
        else emitted in
      run_loop rest' (frame_count + 1) emitted'
  end.

(** [VideoProcessor.run]: the emissions of [frame_processed], in order,
    before [processing_complete]. *)
Definition run (is_running : bool) (video : list (Frame L)) : list emission :=
  if is_running then run_loop video 0 [] else [].

(** The frames of a file with their frame numbers, counted from [i]. *)
Fixpoint enumerate_from (i : Z) (video : list (Frame L)) : list (Z * Frame L) :=
  match video with
  | [] => []
  | frame :: video' => (i, frame) :: enumerate_from (i + 1) video'
  end.

(** The frames whose number is a multiple of 5, with their numbers. *)
Definition sampled_frames (video : list (Frame L)) : list (Z * Frame L) :=
  filter (fun p => fst p mod 5 =? 0) (enumerate_from 0 video).

(** ** MP4VideoPage

    [video_label] is the sequence of frames handed to [display_frame] and
    [analyzed] the sequence of frames for which [analyze_frame] entered
    its [try], both oldest first; the other fields are the attributes of
    the page.  The alert line, the statistics and frame-count labels, the
    progress bar, the button texts and the timer are not part of the
    record: the methods below are their effect on the fields kept, and two
    pages equal as records may still differ in what is left out. *)
Record page := {
  cap : option VideoCapture;
  is_playing : bool;
  current_frame : Z;
  total_frames : Z;
  active_count : Z;
  idle_count : Z;
  pred_label : pred_text;
  frame_slider : QSlider.t;
  video_label : list (Frame L);
  analyzed : list (Frame L)
}.

Definition init : page := {|
  cap := None;
  is_playing := false;
  current_frame := 0;
  total_frames := 0;
  active_count := 0;
  idle_count := 0;
  pred_label := WaitingForVideo;
  frame_slider := QSlider.new;
  video_label := [];
  analyzed := []
|}.

Definition set_cap (c : option VideoCapture) (s : page) : page :=
  {| cap := c; is_playing := is_playing s; current_frame := current_frame s;
     total_frames := total_frames s; active_count := active_count s;
     idle_count := idle_count s; pred_label := pred_label s;
     frame_slider := frame_slider s; video_label := video_label s;
     analyzed := analyzed s |}.

Definition set_is_playing (b : bool) (s : page) : page :=
  {| cap := cap s; is_playing := b; current_frame := current_frame s;
     total_frames := total_frames s; active_count := active_count s;
     idle_count := idle_count s; pred_label := pred_label s;
     frame_slider := frame_slider s; video_label := video_label s;
     analyzed := analyzed s |}.

Definition set_current_frame (n : Z) (s : page) : page :=
  {| cap := cap s; is_playing := is_playing s; current_frame := n;
     total_frames := total_frames s; active_count := active_count s;
     idle_count := idle_count s; pred_label := pred_label s;
     frame_slider := frame_slider s; video_label := video_label s;
     analyzed := analyzed s |}.

Definition set_total_frames (n : Z) (s : page) : page :=
  {| cap := cap s; is_playing := is_playing s; current_frame := current_frame s;
     total_frames := n; active_count := active_count s;
     idle_count := idle_count s; pred_label := pred_label s;
     frame_slider := frame_slider s; video_label := video_label s;
     analyzed := analyzed s |}.

Definition set_frame_slider (sl : QSlider.t) (s : page) : page :=
  {| cap := cap s; is_playing := is_playing s; current_frame := current_frame s;
     total_frames := total_frames s; active_count := active_count s;
     idle_count := idle_count s; pred_label := pred_label s;
     frame_slider := sl; video_label := video_label s;
     analyzed := analyzed s |}.

(** [display_frame] *)
Definition display_frame (frame : Frame L) (s : page) : page :=
  {| cap := cap s; is_playing := is_playing s; current_frame := current_frame s;
     total_frames := total_frames s; active_count := active_count s;
     idle_count := idle_count s; pred_label := pred_label s;
     frame_slider := frame_slider s; video_label := video_label s ++ [frame];
     analyzed := analyzed s |}.

(** [analyze_frame] *)
Definition analyze_frame (frame : Frame L) (s : page) : page :=
  match clf L, feature_extractor L with
  | Some c, Some e =>
      match try_predict L c e frame with
      | Some pred =>
          if pred =? 1 then
            {| cap := cap s; is_playing := is_playing s;
               current_frame := current_frame s; total_frames := total_frames s;
               active_count := active_count s + 1; idle_count := idle_count s;
               pred_label := ActiveWorker; frame_slider := frame_slider s;
               video_label := video_label s; analyzed := analyzed s ++ [frame] |}
          else
            {| cap := cap s; is_playing := is_playing s;
               current_frame := current_frame s; total_frames := total_frames s;
               active_count := active_count s; idle_count := idle_count s + 1;
               pred_label := IdleWorker; frame_slider := frame_slider s;
               video_label := video_label s; analyzed := analyzed s ++ [frame] |}
      | None =>
          {| cap := cap s; is_playing := is_playing s;
             current_frame := current_frame s; total_frames := total_frames s;
             active_count := active_count s; idle_count := idle_count s;
             pred_label := PredictionError; frame_slider := frame_slider s;
             video_label := video_label s; analyzed := analyzed s ++ [frame] |}
      end
  | _, _ => s
  end.

(** [self.cap and self.cap.isOpened()] *)
Definition cap_is_open (s : page) : bool :=
  match cap s with
  | Some c => isOpened c
  | None => false
  end.

(** [ret, frame = self.cap.read()] on the page's capture. *)
Definition page_read (s : page) : option (Frame L) * page :=
  match cap s with
  | Some c => let '(r, c') := cap_read c in (r, set_cap (Some c') s)
  | None => (None, s)
  end.

Definition page_set_pos (n : Z) (s : page) : page :=
  match cap s with
  | Some c => set_cap (Some (cap_set_pos n c)) s
  | None => s
  end.

(** The frame with the given number in the file the page has open. *)
Definition page_frame_at (s : page) (n : Z) : option (Frame L) :=
  match cap s with
  | Some c => if isOpened c then frame_at (frames c) n else None
  | None => None
  end.

(** [seek_frame], the slot connected to [frame_slider.valueChanged]. *)
Definition seek_frame (frame_number : Z) (s : page) : page :=
  if cap_is_open s then
    let s := page_set_pos frame_number s in
    let s := set_current_frame frame_number s in
    match page_read s with
    | (Some frame, s) => analyze_frame frame (display_frame frame s)
    | (None, s) => s
    end
  else s.

(** Delivery of [valueChanged] to its slot. *)
Definition emit_valueChanged (signal : option Z) (s : page) : page :=
  match signal with
  | Some v => seek_frame v s
  | None => s
  end.

(** [self.frame_slider.setValue(v)] *)
Definition slider_setValue (v : Z) (s : page) : page :=
  let '(sl, signal) := QSlider.setValue v (frame_slider s) in
  emit_valueChanged signal (set_frame_slider sl s).

(** [self.frame_slider.setMaximum(m)] *)
Definition slider_setMaximum (m : Z) (s : page) : page :=
  let '(sl, signal) := QSlider.setMaximum m (frame_slider s) in
  emit_valueChanged signal (set_frame_slider sl s).

(** [load_video], once [upload_video] has stored the path; [c] is the
    capture [cv2.VideoCapture(self.video_path)] returns. *)
Definition load_video (c : VideoCapture) (s : page) : page :=
  let s := set_cap (Some c) s in
  if cap_is_open s then
    let s := set_total_frames (frame_count c) s in
    let s := slider_setMaximum (total_frames s - 1) s in
    match page_read s with
    | (Some frame, s) => page_set_pos 0 (display_frame frame s)
    | (None, s) => s
    end
  else s.

(** [play_video]: the flag is set; the button text, the alert line and
    [timer.start(int(1000 / self.fps))] are left out, so a file that
    reports 0 frames per second, for which the division raises, is outside
    the model. *)
Definition play_video (s : page) : page :=
  if cap_is_open s then set_is_playing true s else s.

(** [pause_video] *)
Definition pause_video (s : page) : page := set_is_playing false s.

(** [stop_video] *)
Definition stop_video (s : page) : page :=
  let s := set_is_playing false s in
  match cap s with
  | Some _ =>
      let s := page_set_pos 0 s in
      let s := set_current_frame 0 s in
      let s := slider_setValue 0 s in
      match page_read s with
      | (Some frame, s) => display_frame frame s
      | (None, s) => s
      end
  | None => s
  end.

(** [update_frame], the slot of the playback timer. *)
Definition update_frame (s : page) : page :=
  if cap_is_open s && is_playing s then
    match page_read s with
    | (Some frame, s) =>
        let s := set_current_frame (current_frame s + 1) s in
        let s := slider_setValue (current_frame s) s in
        let s := display_frame frame s in
        let s := analyze_frame frame s in
        if current_frame s >=? total_frames s - 1 then stop_video s else s
    | (None, s) => stop_video s
    end
  else s.

(** The timer firing [n] times. *)
Fixpoint ticks (n : nat) (s : page) : page :=
  match n with
  | O => s
  | S n' => ticks n' (update_frame s)
  end.

(** [analyze_frame] on each frame of a sequence, in order. *)
Definition analyze_all (fs : list (Frame L)) (s : page) : page :=
  fold_left (fun s f => analyze_frame f s) fs s.

Definition tally (s : page) : Z := active_count s + idle_count s.

(** [s'] has displayed and analyzed what [s] has, and then possibly more. *)
Definition extends (s s' : page) : Prop :=
  (exists d, video_label s' = video_label s ++ d) /\
  (exists a, analyzed s' = analyzed s ++ a).

(** [toggle_play], the slot of the play button. *)
Definition toggle_play (s : page) : page :=
  if negb (is_playing s) then play_video s else pause_video s.

(** [cap.release()] *)
Definition release (c : VideoCapture) : VideoCapture :=
  {| isOpened := false; frames := frames c;
     frame_count := frame_count c; pos := pos c |}.

(** [closeEvent]: the capture, if there is one, is released. *)
Definition closeEvent (s : page) : page :=
  match cap s with
  | Some c => set_cap (Some (release c)) s
  | None => s
  end.

(** [upload_video]; [choice] is the capture of the file picked in the
    dialog, [None] when the dialog is cancelled. *)
Definition upload_video (choice : option VideoCapture) (s : page) : page :=
  match choice with
  | Some c => load_video c s
  | None => s
  end.

(** What can happen to the page: the signals connected in [setup_ui] and
    the close event.  [SliderMoved v] is the user moving the slider to
    [v]; the widget stores the value and emits [valueChanged].  Clicks on
    controls that are still disabled are not excluded. *)
Inductive event :=
| Upload (choice : option VideoCapture)
| PlayClicked
| StopClicked
| SliderMoved (v : Z)
| Timeout
| Closed.

(** The events other than an upload. *)
Definition not_upload (e : event) : Prop :=
  match e with Upload _ => False | _ => True end.

Definition handle (e : event) (s : page) : page :=
  match e with
  | Upload choice => upload_video choice s
  | PlayClicked => toggle_play s
  | StopClicked => stop_video s
  | SliderMoved v => slider_setValue v s
  | Timeout => update_frame s
  | Closed => closeEvent s
  end.

Definition handle_all (es : list event) (s : page) : page :=
  fold_left (fun s e => handle e s) es s.

(** Each value of [vs] differs from the one before it, the first from
    [current]: moving the slider through [vs] from [current] changes its
    value every time. *)
Fixpoint each_differs (current : Z) (vs : list Z) : Prop :=
  match vs with
  | [] => True
  | v :: vs' => v <> current /\ each_differs v vs'
  end.

(** From [s] to [s'] the page has displayed the frames [d] and analyzed
    the frames [a], each analyzed frame being one of the displayed ones,
    and the counters have grown by the analyzed frames of their class. *)
Definition advances (s s' : page) : Prop :=
  exists d a,
    video_label s' = video_label s ++ d /\
    analyzed s' = analyzed s ++ a /\
    subseq a d /\
    active_count s' = active_count s + Z.of_nat (length (filter (predicted_active L) a)) /\
    idle_count s' = idle_count s + Z.of_nat (length (filter (predicted_idle L) a)).

(** The page is playing the file [video]: the capture is open on it at
    position [p], the current frame and the slider are at [c]. *)
Definition playing_at (video : list (Frame L)) (p c : Z) (s : page) : Prop :=
  cap s = Some {| isOpened := true; frames := video;
                  frame_count := Z.of_nat (length video); pos := p |} /\
  is_playing s = true /\
  current_frame s = c /\
  total_frames s = Z.of_nat (length video) /\
  frame_slider s = {| QSlider.minimum := 0;
                      QSlider.maximum := Z.of_nat (length video) - 1;
                      QSlider.value := c |}.

(** The frames a complete playback of a file hands to [analyze_frame], in
    order. *)
Definition playback_trace (video : list (Frame L)) : list (Frame L) :=
  match video with
  | v0 :: v1 :: rest => [v1; v0] ++ flat_map (fun v => [v; v]) rest ++ [v0]
  | _ => video
  end.

(** Upload a file, press play and let the timer fire [n] times. *)
Definition playback (video : list (Frame L)) (n : nat) : page :=
  ticks n (play_video (load_video (open_file video) init)).

End Player.

Arguments cap {L} _.
Arguments is_playing {L} _.
Arguments current_frame {L} _.
Arguments total_frames {L} _.
Arguments active_count {L} _.
Arguments idle_count {L} _.
Arguments pred_label {L} _.
Arguments frame_slider {L} _.
Arguments video_label {L} _.
Arguments analyzed {L} _.
Arguments tally {L} _.
Arguments frames {L} _.
Arguments pos {L} _.
Arguments isOpened {L} _.
Arguments frame_count {L} _.
Arguments Upload {L} _.
Arguments PlayClicked {L}.
Arguments StopClicked {L}.
Arguments SliderMoved {L} _.
Arguments Timeout {L}.
Arguments Closed {L}.

(** ceil(n / d) on integers. *)
Definition ceil_div (n d : Z) : Z := (n + d - 1) / d.

(** A file of [n] numbered frames, 0 to n-1. *)
Definition numbered_video (n : nat) : list Z := map Z.of_nat (seq 0 n).

End Mp4Video.

(* ================================================================== *)
(** * Properties of the dataset builder *)
(* ================================================================== *)

Section StringFacts.

Lemma prefix_append (sub b : string) :
  String.prefix sub (String.append sub b) = true.
Proof.
  induction sub as [|c sub IH]; cbn.
  - now destruct b.
  - destruct (ascii_dec c c) as [_|n]; [exact IH | now destruct n].
Qed.

Lemma prefix_split (sub s : string) :
  String.prefix sub s = true -> exists b, s = String.append sub b.
Proof.
  revert s; induction sub as [|c sub IH]; intros s H.
  - now exists s.
  - destruct s as [|d s]; cbn in H; [discriminate|].
    destruct (ascii_dec c d) as [->|]; [|discriminate].
    destruct (IH _ H) as [b ->]. now exists b.
Qed.

Lemma contains_spec (sub s : string) :
  PyStr.contains sub s = true <-> PyStr.substring_of sub s.
Proof.
  split.
  - induction s as [|c s IH]; cbn [PyStr.contains]; intros H.
    + rewrite orb_false_r in H. destruct (prefix_split _ _ H) as [b Hb].
      exists EmptyString, b. exact Hb.
    + apply orb_true_iff in H as [H|H].
      * destruct (prefix_split _ _ H) as [b Hb].
        exists EmptyString, b. exact Hb.
      * destruct (IH H) as (a & b & ->). now exists (String c a), b.
  - intros (a & b & ->). induction a as [|c a IH].
    + cbn [String.append].
      destruct (String.append sub b) eqn:E; cbn [PyStr.contains];
        rewrite <- E, prefix_append; reflexivity.
    + cbn [String.append PyStr.contains]. rewrite IH. apply orb_true_r.
Qed.

End StringFacts.

Section BuilderFacts.
Import Preprocessing.
Context (W : World).

Lemma any_in_spec (vocabulary : list string) (img_file : string) :
  any_in W vocabulary img_file = true <-> in_vocabulary W vocabulary img_file.
Proof.
  unfold any_in, in_vocabulary. rewrite existsb_exists.
  split; intros (c & Hin & Hc); exists c; split; trivial;
    now apply contains_spec.
Qed.

Lemma any_in_false (vocabulary : list string) (img_file : string) :
  any_in W vocabulary img_file = false <-> ~ in_vocabulary W vocabulary img_file.
Proof.
  rewrite <- any_in_spec. destruct (any_in W vocabulary img_file);
    split; intros H; try reflexivity; try discriminate.
  now destruct H.
Qed.

Lemma load_loop_app dir n (l1 l2 : list string) acc :
  load_loop W dir n (l1 ++ l2) acc = load_loop W dir n l2 (load_loop W dir n l1 acc).
Proof. unfold load_loop. apply fold_left_app. Qed.

(** A file on which the loop body leaves the accumulators alone can be
    removed from the listing without changing the result. *)
Lemma load_loop_skip dir n f before after acc :
  (forall a, load_step W dir n a f = a) ->
  load_loop W dir n (before ++ f :: after) acc = load_loop W dir n (before ++ after) acc.
Proof.
  intros Hskip. rewrite !load_loop_app. unfold load_loop at 1. cbn [fold_left].
  rewrite Hskip. reflexivity.
Qed.

(** One iteration either leaves the accumulators alone or appends one
    resized image together with its label. *)
Lemma load_step_cases dir n acc f :
  load_step W dir n acc f = acc \/
  exists label img r,
    label_of W f = Some label /\
    imread W (path_join W dir f) = ImreadOk img /\
    resize W img n = Some r /\
    load_step W dir n acc f = (fst acc ++ [r], snd acc ++ [label]).
Proof.
  unfold load_step.
  destruct (label_of W f) as [label|]; [|now left].
  destruct (imread W (path_join W dir f)) as [| |img]; try now left.
  destruct (resize W img n) as [r|] eqn:Er; [|now left].
  right. now exists label, img, r.
Qed.

(** Invariant of the loop: the two accumulators grow together, by at most
    one entry per file, and every new image is a resized decoded file. *)
Lemma load_loop_invariant dir n files :
  forall acc,
    exists X' y',
      load_loop W dir n files acc = (fst acc ++ X', snd acc ++ y') /\
      length X' = length y' /\
      (length X' <= length files)%nat /\
      Forall (fun x => exists f img,
                In f files /\
                imread W (path_join W dir f) = ImreadOk img /\
                resize W img n = Some x) X'.
Proof.
  induction files as [|f files IH]; intros acc.
  - exists [], []. cbn. rewrite !app_nil_r. destruct acc.
    repeat split; auto.
  - change (load_loop W dir n (f :: files) acc)
      with (load_loop W dir n files (load_step W dir n acc f)).
    destruct (load_step_cases dir n acc f)
      as [->|(label & img & r & Hl & Hi & Hr & ->)].
    + destruct (IH acc) as (X' & y' & -> & Hlen & Hle & Hall).
      exists X', y'. repeat split; auto.
      * cbn. lia.
      * eapply Forall_impl; [|exact Hall].
        intros x (g & i & Hg & H1 & H2). exists g, i. cbn. auto.
    + destruct (IH (fst acc ++ [r], snd acc ++ [label]))
        as (X' & y' & -> & Hlen & Hle & Hall).
      exists (r :: X'), (label :: y'). cbn [fst snd].
      rewrite <- !app_assoc. cbn [app]. repeat split.
      * cbn. lia.
      * cbn. lia.
      * constructor.
        -- exists f, img. cbn. auto.
        -- eapply Forall_impl; [|exact Hall].
           intros x (g & i & Hg & H1 & H2). exists g, i. cbn. auto.
Qed.

(** The loop adds to the accumulators what it produces from empty ones. *)
Lemma load_loop_acc dir n files :
  forall acc,
    load_loop W dir n files acc
    = (fst acc ++ fst (load_loop W dir n files ([], [])),
       snd acc ++ snd (load_loop W dir n files ([], []))).
Proof.
  induction files as [|f files IH]; intros acc.
  - cbn. rewrite !app_nil_r. now destruct acc.
  - change (load_loop W dir n (f :: files) acc)
      with (load_loop W dir n files (load_step W dir n acc f)).
    change (load_loop W dir n (f :: files) ([], []))
      with (load_loop W dir n files (load_step W dir n ([], []) f)).
    rewrite (IH (load_step W dir n acc f)),
            (IH (load_step W dir n ([], []) f)).
    destruct (load_step_cases dir n acc f)
      as [E|(label & img & r & Hl & Hi & Hr & E)].
    + assert (E0 : load_step W dir n ([], []) f = ([], [])).
      { unfold load_step in *. destruct (label_of W f); [|reflexivity].
        destruct (imread W _); try reflexivity.
        destruct (resize W img n) eqn:Er; [|reflexivity].
        exfalso. destruct acc as [X y]. cbn in E.
        apply (f_equal (fun p => length (fst p))) in E. cbn in E.
        rewrite length_app in E. cbn in E. lia. }
      rewrite E, E0. reflexivity.
    + assert (E0 : load_step W dir n ([], []) f = ([r], [label])).
      { unfold load_step. now rewrite Hl, Hi, Hr. }
      rewrite E, E0. cbn [fst snd]. now rewrite <- !app_assoc.
Qed.

(** A labelled file that decodes is stored with its label. *)
Lemma label_stored (f : string) (label : Z) :
  label_of W f = Some label -> stores_label W f label.
Proof.
  intros Hl dir n img r Hi Hr.
  assert (Hstep : forall acc,
             load_step W dir n acc f = (fst acc ++ [r], snd acc ++ [label])).
  { intros acc. unfold load_step. now rewrite Hl, Hi, Hr. }
  assert (Hloop : forall before after,
    load_loop W dir n (before ++ f :: after) ([], [])
    = (fst (load_loop W dir n before ([], []))
         ++ r :: fst (load_loop W dir n after ([], [])),
       snd (load_loop W dir n before ([], []))
         ++ label :: snd (load_loop W dir n after ([], [])))).
  { intros before after. rewrite load_loop_app.
    change (load_loop W dir n (f :: after) (load_loop W dir n before ([], [])))
      with (load_loop W dir n after
              (load_step W dir n (load_loop W dir n before ([], [])) f)).
    rewrite Hstep, load_loop_acc. cbn [fst snd].
    now rewrite <- !app_assoc. }
  split; [exact Hstep|]. split; [exact Hloop|].
  intros entries before after Hdir Hfiles.
  unfold load_data. rewrite Hdir. cbv zeta. rewrite Hfiles.
  destruct (before ++ f :: after) as [|g files] eqn:E.
  - now destruct before.
  - rewrite <- E. now rewrite Hloop.
Qed.

(** C2. A file name whose lowercased form contains an idle-vocabulary
    string and no active-vocabulary string gets label 0, and the builder
    stores 0 for it: when the file decodes, its resized image and the label
    0 are appended together by the iteration, and they are in the output of
    the loop and of [load_data] at the file's place.  One that contains an
    active-vocabulary string and no idle-vocabulary string gets, and is
    stored with, label 1.  One that matches neither vocabulary gets no
    label and the output of the loop is the same as if the file were not
    listed.  One that matches both vocabularies gets, and is stored with,
    label 0, because the idle check comes first. *)
Theorem label_by_vocabulary :
  (forall f,
      in_vocabulary W idle_classes f -> ~ in_vocabulary W active_classes f ->
      label_of W f = Some 0%Z /\ stores_label W f 0%Z) /\
  (forall f,
      in_vocabulary W active_classes f -> ~ in_vocabulary W idle_classes f ->
      label_of W f = Some 1%Z /\ stores_label W f 1%Z) /\
  (forall f,
      ~ in_vocabulary W idle_classes f -> ~ in_vocabulary W active_classes f ->
      label_of W f = None /\
      forall dir n before after acc,
        load_loop W dir n (before ++ f :: after) acc
        = load_loop W dir n (before ++ after) acc) /\
  (forall f,
      in_vocabulary W idle_classes f -> in_vocabulary W active_classes f ->
      label_of W f = Some 0%Z /\ stores_label W f 0%Z).
Proof.
  assert (Hidle : forall f, in_vocabulary W idle_classes f ->
                            label_of W f = Some 0%Z).
  { intros f Hi. unfold label_of. apply any_in_spec in Hi. now rewrite Hi. }
  split; [|split; [|split]].
  - intros f Hi _. split; [|apply label_stored]; now apply Hidle.
  - intros f Ha Hi.
    assert (Hl : label_of W f = Some 1%Z).
    { unfold label_of. apply any_in_spec in Ha. apply any_in_false in Hi.
      now rewrite Hi, Ha. }
    split; [exact Hl | now apply label_stored].
  - intros f Hi Ha. apply any_in_false in Hi, Ha.
    assert (Hl : label_of W f = None) by (unfold label_of; now rewrite Hi, Ha).
    split; [exact Hl|].
    intros dir n before after acc. apply load_loop_skip.
    intros a. unfold load_step. now rewrite Hl.
  - intros f Hi _. split; [|apply label_stored]; now apply Hidle.
Qed.

(** C6. A missing directory and a directory without a supported image file
    both make [load_data] return the pair of empty sequences, not an
    exception; and a listed file whose decoding returns no image or raises
    is skipped: the loop gives what it gives without that file. *)
Theorem load_data_non_fatal :
  (forall dir n, fs W dir = Missing -> load_data W dir n = Some ([], [])) /\
  (forall dir n entries,
      fs W dir = Directory entries ->
      (forall f, In f entries -> is_image_file W f = false) ->
      load_data W dir n = Some ([], [])) /\
  (forall dir n f,
      imread W (path_join W dir f) = ImreadNone \/
      imread W (path_join W dir f) = ImreadRaises ->
      forall before after acc,
        load_loop W dir n (before ++ f :: after) acc
        = load_loop W dir n (before ++ after) acc).
Proof.
  repeat split.
  - intros dir n H. unfold load_data. now rewrite H.
  - intros dir n entries H Hnone. unfold load_data. rewrite H.
    assert (E : filter (is_image_file W) entries = []).
    { clear H. induction entries as [|e entries IH]; [reflexivity|].
      cbn [filter]. rewrite (Hnone e (or_introl eq_refl)).
      apply IH. intros f Hf. apply Hnone. now right. }
    cbv zeta. now rewrite E.
  - intros dir n f Hdec before after acc. apply load_loop_skip.
    intros a. unfold load_step.
    destruct (label_of W f); [|reflexivity].
    destruct Hdec as [-> | ->]; reflexivity.
Qed.

(** C7. On a directory, [load_data] returns two sequences of the same
    length, at most as long as the list of image files found, and every
    image of the first one is the result of resizing a decoded image file
    of the directory to the requested size. *)
Theorem load_data_parallel dir n entries :
  fs W dir = Directory entries ->
  exists X y,
    load_data W dir n = Some (X, y) /\
    length X = length y /\
    (length X <= length (filter (is_image_file W) entries))%nat /\
    Forall (fun x => exists f img,
              In f (filter (is_image_file W) entries) /\
              imread W (path_join W dir f) = ImreadOk img /\
              resize W img n = Some x) X.
Proof.
  intros Hdir. unfold load_data. rewrite Hdir. cbv zeta.
  destruct (filter (is_image_file W) entries) as [|f files] eqn:E.
  - exists [], []. repeat split; auto.
  - destruct (load_loop_invariant dir n (f :: files) ([], []))
      as (X' & y' & Hout & Hlen & Hle & Hall).
    exists X', y'. rewrite Hout. repeat split; auto.
Qed.

End BuilderFacts.

Section BuilderScenario.
Import Preprocessing.

Lemma label_by_vocabulary_witness :
  (in_vocabulary demo_world idle_classes "reading_01.jpg" /\
   label_of demo_world "reading_01.jpg" = Some 0%Z /\
   load_data demo_world "data" 128
   = Some ([(128, 128); (128, 128)], [0; 1])%Z) /\
  (in_vocabulary demo_world active_classes "running_02.jpg" /\
   label_of demo_world "running_02.jpg" = Some 1%Z /\
   load_step demo_world "data" 128 ([(128, 128)], [0])%Z "running_02.jpg"
   = ([(128, 128); (128, 128)], [0; 1])%Z) /\
  (~ in_vocabulary demo_world idle_classes "unknown_03.jpg" /\
   label_of demo_world "unknown_03.jpg" = None) /\
  (in_vocabulary demo_world active_classes "Reading_while_RUNNING.png" /\
   label_of demo_world "Reading_while_RUNNING.png" = Some 0%Z /\
   load_loop demo_world "data" 128
     ["running_02.jpg"; "Reading_while_RUNNING.png"; "unknown_03.jpg"] ([], [])
   = ([(128, 128); (128, 128)], [1; 0])%Z).
Proof.
  destruct (label_by_vocabulary demo_world) as (Hidle & Hactive & Hnone & Hboth).
  split; [|split; [|split]].
  - split; [apply any_in_spec; reflexivity|].
    destruct (Hidle "reading_01.jpg") as (Hl & Hs);
      [apply any_in_spec | apply any_in_false | ]; try reflexivity.
    split; [exact Hl|].
    exact (proj2 (proj2 (Hs "data" 128%Z (480, 640)%Z (128, 128)%Z
                            eq_refl eq_refl))
             [ "reading_01.jpg"; "running_02.jpg"; "unknown_03.jpg";
               "Cooking_04.PNG"; "sleeping_05.jpeg"; "notes.txt" ]
             []
             [ "running_02.jpg"; "unknown_03.jpg"; "Cooking_04.PNG";
               "sleeping_05.jpeg" ]
             eq_refl eq_refl).
  - split; [apply any_in_spec; reflexivity|].
    destruct (Hactive "running_02.jpg") as (Hl & Hs);
      [apply any_in_spec | apply any_in_false | ]; try reflexivity.
    split; [exact Hl|].
    exact (proj1 (Hs "data" 128%Z (480, 640)%Z (128, 128)%Z eq_refl eq_refl)
             ([(128, 128)], [0])%Z).
  - split; [apply any_in_false; reflexivity|].
    apply Hnone; apply any_in_false; reflexivity.
  - split; [apply any_in_spec; reflexivity|].
    destruct (Hboth "Reading_while_RUNNING.png") as (Hl & Hs);
      [apply any_in_spec | apply any_in_spec | ]; try reflexivity.
    split; [exact Hl|].
    exact (proj1 (proj2 (Hs "data" 128%Z (480, 640)%Z (128, 128)%Z
                            eq_refl eq_refl))
             ["running_02.jpg"] ["unknown_03.jpg"]).
Defined.

Lemma load_data_non_fatal_witness :
  load_data demo_world "missing" 128 = Some ([], []) /\
  load_data demo_world "empty" 128 = Some ([], []) /\
  load_loop demo_world "data" 128
    ["reading_01.jpg"; "Cooking_04.PNG"; "sleeping_05.jpeg"; "running_02.jpg"]
    ([], [])
  = load_loop demo_world "data" 128 ["reading_01.jpg"; "running_02.jpg"] ([], []).
Proof.
  destruct (load_data_non_fatal demo_world) as (Hmissing & Hempty & Hskip).
  split; [|split].
  - apply Hmissing. reflexivity.
  - apply (Hempty "empty" 128%Z ["notes.txt"]); [reflexivity|].
    intros f [<-|[]]. reflexivity.
  - rewrite (Hskip "data" 128%Z "Cooking_04.PNG" (or_introl eq_refl)
               ["reading_01.jpg"] ["sleeping_05.jpeg"; "running_02.jpg"]).
    apply (Hskip "data" 128%Z "sleeping_05.jpeg" (or_intror eq_refl)
             ["reading_01.jpg"] ["running_02.jpg"]).
Defined.

Lemma load_data_parallel_witness :
  exists X y,
    load_data demo_world "data" 128 = Some (X, y) /\
    length X = length y /\
    (length X <= 5)%nat /\
    Forall (fun x => exists f img,
              In f ["reading_01.jpg"; "running_02.jpg"; "unknown_03.jpg";
                    "Cooking_04.PNG"; "sleeping_05.jpeg"] /\
              imread demo_world (path_join demo_world "data" f) = ImreadOk img /\
              resize demo_world img 128 = Some x) X.
Proof.
  exact (load_data_parallel demo_world "data" 128%Z
           [ "reading_01.jpg"; "running_02.jpg"; "unknown_03.jpg";
             "Cooking_04.PNG"; "sleeping_05.jpeg"; "notes.txt" ] eq_refl).
Defined.

(** The end-to-end scenario of the dataset builder: three decodable files
    give two samples, label 0 for the reading image and label 1 for the
    running one. *)
Example load_data_scenario :
  load_data demo_world "data" 128 = Some ([(128, 128); (128, 128)], [0; 1])%Z.
Proof. reflexivity. Qed.

End BuilderScenario.

(* ================================================================== *)
(** * Properties of the inference loops *)
(* ================================================================== *)

Section InferenceFacts.
Import Inference.
Context (L : Libs).

Lemma classify_some (f : Frame L) (pred : Z) :
  classify L f = Some pred ->
  exists c e, clf L = Some c /\ feature_extractor L = Some e /\
              try_predict L c e f = Some pred.
Proof.
  unfold classify. destruct (clf L) as [c|]; [|discriminate].
  destruct (feature_extractor L) as [e|]; [|discriminate].
  intros H. now exists c, e.
Qed.

Lemma classify_none (f : Frame L) :
  models_loaded L = true -> classify L f = None ->
  exists c e, clf L = Some c /\ feature_extractor L = Some e /\
              try_predict L c e f = None.
Proof.
  unfold classify, models_loaded. destruct (clf L) as [c|]; [|discriminate].
  destruct (feature_extractor L) as [e|]; [|discriminate].
  intros _ H. now exists c, e.
Qed.

Lemma clf_none_classify (f : Frame L) : clf L = None -> classify L f = None.
Proof. unfold classify. now intros ->. Qed.

End InferenceFacts.

Section LiveFacts.
Import Inference LiveVideo.
Context (L : Libs).

Local Open Scope Z_scope.

Lemma live_update_ok (s : page L) (f : Frame L) (pred : Z) :
  cap_opened s = true -> classify L f = Some pred ->
  update_frame L (Some f) s = show_video L f (update_dashboard L pred s).
Proof.
  intros Hc Hp. destruct (classify_some L f pred Hp) as (c & e & Hc1 & He & Ht).
  unfold update_frame. now rewrite Hc, Hc1, He, Ht.
Qed.

Lemma live_update_error (s : page L) (f : Frame L) :
  models_loaded L = true -> cap_opened s = true -> classify L f = None ->
  update_frame L (Some f) s = show_video L f (prediction_error L s).
Proof.
  intros Hm Hc Hp. destruct (classify_none L f Hm Hp) as (c & e & Hc1 & He & Ht).
  unfold update_frame. now rewrite Hc, Hc1, He, Ht.
Qed.

Lemma live_update_no_model (s : page L) (f : Frame L) :
  clf L = None -> cap_opened s = true ->
  update_frame L (Some f) s = show_video L f s.
Proof. intros Hn Hc. unfold update_frame. now rewrite Hc, Hn. Qed.

Lemma live_update_cap (r : option (Frame L)) (s : page L) :
  cap_opened (update_frame L r s) = cap_opened s.
Proof.
  unfold update_frame. destruct (cap_opened s) eqn:E; cbn; [|exact E].
  destruct r as [f|]; [|exact E]. cbn.
  destruct (clf L), (feature_extractor L); try exact E.
  destruct (try_predict L _ _ f); [|exact E].
  unfold update_dashboard. now destruct (_ =? 1).
Qed.

Lemma dashboard_tally (pred : Z) (s : page L) :
  tally (update_dashboard L pred s) = tally s + 1.
Proof. unfold update_dashboard, tally. destruct (pred =? 1); cbn; lia. Qed.

(** One tick adds one to the tally exactly when the frame it reads is
    classified without error. *)
Lemma live_update_tally (r : option (Frame L)) (s : page L) :
  cap_opened s = true ->
  tally (update_frame L r s)
  = tally s + Z.of_nat (length (classified_ok L (frames_of L [r]))).
Proof.
  intros Hc. destruct r as [f|]; cbn.
  - destruct (classify L f) as [pred|] eqn:Hp; cbn.
    + rewrite (live_update_ok s f pred Hc Hp).
      change (tally (show_video L f (update_dashboard L pred s)))
        with (tally (update_dashboard L pred s)).
      apply dashboard_tally.
    + unfold update_frame. rewrite Hc. cbn. unfold classify in Hp.
      destruct (clf L), (feature_extractor L);
        try rewrite Hp; unfold tally; cbn; lia.
  - unfold update_frame. rewrite Hc. cbn. lia.
Qed.

Lemma live_run_tally (reads : list (option (Frame L))) :
  forall s, cap_opened s = true ->
  tally (run L reads s)
  = tally s + Z.of_nat (length (classified_ok L (frames_of L reads))).
Proof.
  induction reads as [|r reads IH]; intros s Hc.
  - cbn. lia.
  - change (run L (r :: reads) s) with (run L reads (update_frame L r s)).
    rewrite IH by (now rewrite live_update_cap).
    rewrite (live_update_tally r s Hc).
    assert (E : frames_of L (r :: reads) = frames_of L [r] ++ frames_of L reads)
      by (destruct r; reflexivity).
    rewrite E. unfold classified_ok. rewrite filter_app, length_app. lia.
Qed.

End LiveFacts.

Section AnalyzeFacts.
Import Inference Mp4Video.
Context (L : Libs).

Local Open Scope Z_scope.

Lemma analyze_frame_ok (s : page L) (f : Frame L) (pred : Z) :
  classify L f = Some pred ->
  let s' := analyze_frame L f s in
  active_count s' = active_count s + (if pred =? 1 then 1 else 0) /\
  idle_count s' = idle_count s + (if pred =? 1 then 0 else 1) /\
  pred_label s' = (if pred =? 1 then ActiveWorker else IdleWorker) /\
  analyzed s' = analyzed s ++ [f].
Proof.
  intros Hp. destruct (classify_some L f pred Hp) as (c & e & Hc & He & Ht).
  unfold analyze_frame. rewrite Hc, He, Ht.
  destruct (pred =? 1); cbn; repeat split; lia.
Qed.

Lemma analyze_frame_error (s : page L) (f : Frame L) :
  models_loaded L = true -> classify L f = None ->
  let s' := analyze_frame L f s in
  active_count s' = active_count s /\ idle_count s' = idle_count s /\
  pred_label s' = PredictionError /\ analyzed s' = analyzed s ++ [f].
Proof.
  intros Hm Hp. destruct (classify_none L f Hm Hp) as (c & e & Hc & He & Ht).
  unfold analyze_frame. rewrite Hc, He, Ht. cbn. auto.
Qed.

Lemma analyze_frame_no_model (s : page L) (f : Frame L) :
  clf L = None -> analyze_frame L f s = s.
Proof. intros Hn. unfold analyze_frame. now rewrite Hn. Qed.

(** [analyze_frame] touches the counters, the status text and the log
    only. *)
Lemma analyze_frame_frame (s : page L) (f : Frame L) :
  let s' := analyze_frame L f s in
  cap s' = cap s /\ is_playing s' = is_playing s /\
  current_frame s' = current_frame s /\ total_frames s' = total_frames s /\
  frame_slider s' = frame_slider s /\ video_label s' = video_label s.
Proof.
  unfold analyze_frame.
  destruct (clf L), (feature_extractor L); cbn; auto 10.
  destruct (try_predict L _ _ f) as [pred|]; cbn; auto 10.
  destruct (pred =? 1); cbn; auto 10.
Qed.

Lemma analyze_frame_tally (s : page L) (f : Frame L) :
  tally (analyze_frame L f s)
  = tally s + Z.of_nat (length (classified_ok L [f])).
Proof.
  unfold classified_ok. cbn [filter].
  destruct (classify L f) as [pred|] eqn:Hp.
  - destruct (analyze_frame_ok s f pred Hp) as (Ha & Hi & _).
    unfold tally. rewrite Ha, Hi. destruct (pred =? 1); cbn; lia.
  - unfold analyze_frame, tally. unfold classify in Hp.
    destruct (clf L), (feature_extractor L); try rewrite Hp; cbn; lia.
Qed.

Lemma analyze_all_tally (fs : list (Frame L)) :
  forall s, tally (analyze_all L fs s)
            = tally s + Z.of_nat (length (classified_ok L fs)).
Proof.
  induction fs as [|f fs IH]; intros s.
  - cbn. lia.
  - change (analyze_all L (f :: fs) s) with (analyze_all L fs (analyze_frame L f s)).
    rewrite IH, analyze_frame_tally.
    change (f :: fs) with ([f] ++ fs).
    unfold classified_ok. rewrite filter_app, length_app. lia.
Qed.

End AnalyzeFacts.

Section LoopClaims.
Import Inference.
Context (L : Libs).

Local Open Scope Z_scope.

Lemma classified_ok_all (fs : list (Frame L)) :
  Forall (fun f => classify L f <> None) fs -> classified_ok L fs = fs.
Proof.
  induction 1 as [|f fs Hf _ IH]; [reflexivity|].
  unfold classified_ok in *. cbn [filter].
  destruct (classify L f); [now rewrite IH | now destruct Hf].
Qed.

(** C3. With the classifier and the extractor loaded, a frame whose
    prediction does not raise adds one to [active_count] when the
    prediction is 1 and one to [idle_count] otherwise, and leaves the other
    counter alone; hence after any sequence of frames the sum of the two
    counters has grown by the number of frames classified without error.
    Both for the live loop and for [analyze_frame] of the MP4 page. *)
Theorem tally_counts_classified_frames :
  (forall (s : LiveVideo.page L) f pred,
      LiveVideo.cap_opened s = true -> classify L f = Some pred ->
      let s' := LiveVideo.update_frame L (Some f) s in
      (pred = 1 -> LiveVideo.active_count s' = LiveVideo.active_count s + 1 /\
                   LiveVideo.idle_count s' = LiveVideo.idle_count s) /\
      (pred <> 1 -> LiveVideo.active_count s' = LiveVideo.active_count s /\
                    LiveVideo.idle_count s' = LiveVideo.idle_count s + 1)) /\
  (forall (s : LiveVideo.page L) reads,
      LiveVideo.cap_opened s = true ->
      LiveVideo.tally (LiveVideo.run L reads s)
      = LiveVideo.tally s
        + Z.of_nat (length (classified_ok L (LiveVideo.frames_of L reads)))) /\
  (forall (s : Mp4Video.page L) f pred,
      classify L f = Some pred ->
      let s' := Mp4Video.analyze_frame L f s in
      (pred = 1 -> Mp4Video.active_count s' = Mp4Video.active_count s + 1 /\
                   Mp4Video.idle_count s' = Mp4Video.idle_count s) /\
      (pred <> 1 -> Mp4Video.active_count s' = Mp4Video.active_count s /\
                    Mp4Video.idle_count s' = Mp4Video.idle_count s + 1)) /\
  (forall (s : Mp4Video.page L) fs,
      Mp4Video.tally (Mp4Video.analyze_all L fs s)
      = Mp4Video.tally s + Z.of_nat (length (classified_ok L fs))).
Proof.
  split; [|split; [|split]].
  - intros s f pred Hc Hp. cbv zeta. rewrite (live_update_ok L s f pred Hc Hp).
    unfold LiveVideo.update_dashboard. split; intros Hpred.
    + apply Z.eqb_eq in Hpred. rewrite Hpred. cbn. auto.
    + apply Z.eqb_neq in Hpred. rewrite Hpred. cbn. auto.
  - intros s reads Hc. now apply live_run_tally.
  - intros s f pred Hp. cbv zeta.
    destruct (analyze_frame_ok L s f pred Hp) as (Ha & Hi & _).
    rewrite Ha, Hi. split; intros Hpred.
    + apply Z.eqb_eq in Hpred. rewrite Hpred. split; lia.
    + apply Z.eqb_neq in Hpred. rewrite Hpred. split; lia.
  - intros s fs. apply analyze_all_tally.
Qed.

(** C4. When the module-level load fails, [clf] and [feature_extractor]
    are both [None]; then no sequence of ticks of the live loop changes a
    counter or a status text, every frame read is still shown, and from the
    initial page the status stays the initial one with both counters 0.
    [analyze_frame] of the MP4 page does nothing at all. *)
Theorem no_classifier_no_tally :
  joblib_load L = None \/ MobileNetV2 L = None ->
  (clf L = None /\ feature_extractor L = None) /\
  (forall (s : LiveVideo.page L) reads,
      let s' := LiveVideo.run L reads s in
      LiveVideo.active_count s' = LiveVideo.active_count s /\
      LiveVideo.idle_count s' = LiveVideo.idle_count s /\
      LiveVideo.pred_label s' = LiveVideo.pred_label s /\
      LiveVideo.alert_label s' = LiveVideo.alert_label s /\
      (LiveVideo.cap_opened s = true ->
       LiveVideo.video_label s'
       = LiveVideo.video_label s ++ LiveVideo.frames_of L reads)) /\
  (forall reads,
      let s' := LiveVideo.run L reads (LiveVideo.init L true) in
      LiveVideo.active_count s' = 0 /\ LiveVideo.idle_count s' = 0 /\
      LiveVideo.pred_label s' = Initializing /\
      LiveVideo.alert_label s' = LiveVideo.SystemReady /\
      LiveVideo.video_label s' = LiveVideo.frames_of L reads) /\
  (forall (s : Mp4Video.page L) f, Mp4Video.analyze_frame L f s = s).
Proof.
  intros Hload.
  assert (Hclf : clf L = None).
  { unfold clf. destruct Hload as [-> | ->]; [reflexivity|].
    now destruct (joblib_load L). }
  assert (Hfe : feature_extractor L = None).
  { unfold feature_extractor. destruct Hload as [-> | ->]; [reflexivity|].
    now destruct (joblib_load L). }
  assert (Hrun : forall reads (s : LiveVideo.page L),
    let s' := LiveVideo.run L reads s in
    LiveVideo.active_count s' = LiveVideo.active_count s /\
    LiveVideo.idle_count s' = LiveVideo.idle_count s /\
    LiveVideo.pred_label s' = LiveVideo.pred_label s /\
    LiveVideo.alert_label s' = LiveVideo.alert_label s /\
    (LiveVideo.cap_opened s = true ->
     LiveVideo.video_label s'
     = LiveVideo.video_label s ++ LiveVideo.frames_of L reads)).
  { induction reads as [|r reads IH]; intros s; cbv zeta.
    - cbn. rewrite app_nil_r. auto.
    - change (LiveVideo.run L (r :: reads) s)
        with (LiveVideo.run L reads (LiveVideo.update_frame L r s)).
      destruct (IH (LiveVideo.update_frame L r s)) as (Ha & Hi & Hp & Hal & Hv).
      rewrite Ha, Hi, Hp, Hal.
      rewrite live_update_cap in Hv.
      destruct (LiveVideo.cap_opened s) eqn:Hc.
      + rewrite (Hv eq_refl). destruct r as [f|].
        * rewrite (live_update_no_model L s f Hclf Hc).
          cbn. repeat split; auto. intros _. now rewrite <- app_assoc.
        * unfold LiveVideo.update_frame. rewrite Hc. cbn.
          repeat split; auto.
      + unfold LiveVideo.update_frame. rewrite Hc. cbn.
        repeat split; auto. discriminate. }
  split; [now split|]. split; [|split].
  - intros s reads. apply Hrun.
  - intros reads. cbv zeta.
    destruct (Hrun reads (LiveVideo.init L true)) as (Ha & Hi & Hp & Hal & Hv).
    rewrite Ha, Hi, Hp, Hal, (Hv eq_refl). cbn. auto.
  - intros s f. now apply analyze_frame_no_model.
Qed.

(** C5. With the models loaded, a frame whose prediction raises makes the
    loop show the error text, leaves both counters as they were, and the
    loop goes on: the frame is still shown on the live page, the capture
    stays open, and the following frames are processed from the resulting
    state.  Both for the live loop and for [analyze_frame]. *)
Theorem prediction_error_contained :
  models_loaded L = true ->
  (forall (s : LiveVideo.page L) f,
      LiveVideo.cap_opened s = true -> classify L f = None ->
      let s' := LiveVideo.update_frame L (Some f) s in
      LiveVideo.pred_label s' = PredictionError /\
      LiveVideo.active_count s' = LiveVideo.active_count s /\
      LiveVideo.idle_count s' = LiveVideo.idle_count s /\
      LiveVideo.video_label s' = LiveVideo.video_label s ++ [f] /\
      LiveVideo.cap_opened s' = true /\
      forall reads,
        LiveVideo.run L (Some f :: reads) s = LiveVideo.run L reads s' /\
        LiveVideo.tally (LiveVideo.run L (Some f :: reads) s)
        = LiveVideo.tally s
          + Z.of_nat (length (classified_ok L (LiveVideo.frames_of L reads)))) /\
  (forall (s : Mp4Video.page L) f,
      classify L f = None ->
      let s' := Mp4Video.analyze_frame L f s in
      Mp4Video.pred_label s' = PredictionError /\
      Mp4Video.active_count s' = Mp4Video.active_count s /\
      Mp4Video.idle_count s' = Mp4Video.idle_count s /\
      Mp4Video.cap s' = Mp4Video.cap s /\
      Mp4Video.is_playing s' = Mp4Video.is_playing s /\
      forall fs,
        Mp4Video.analyze_all L (f :: fs) s = Mp4Video.analyze_all L fs s' /\
        Mp4Video.tally (Mp4Video.analyze_all L (f :: fs) s)
        = Mp4Video.tally s + Z.of_nat (length (classified_ok L fs))).
Proof.
  intros Hm. split.
  - intros s f Hc Hp. cbv zeta.
    assert (Hrun : forall reads,
      LiveVideo.run L (Some f :: reads) s
      = LiveVideo.run L reads (LiveVideo.update_frame L (Some f) s))
      by reflexivity.
    split; [|split; [|split; [|split; [|split]]]];
      try (rewrite (live_update_error L s f Hm Hc Hp); reflexivity).
    + now rewrite live_update_cap.
    + intros reads. split; [apply Hrun|].
      rewrite Hrun, live_run_tally by (now rewrite live_update_cap).
      rewrite (live_update_error L s f Hm Hc Hp). reflexivity.
  - intros s f Hp. cbv zeta.
    destruct (analyze_frame_error L s f Hm Hp) as (Ha & Hi & Hl & _).
    destruct (analyze_frame_frame L s f) as (Hcap & Hplay & _).
    split; [|split; [|split; [|split; [|split]]]]; auto.
    intros fs. split; [reflexivity|].
    change (Mp4Video.analyze_all L (f :: fs) s)
      with (Mp4Video.analyze_all L fs (Mp4Video.analyze_frame L f s)).
    rewrite analyze_all_tally. unfold Mp4Video.tally. rewrite Ha, Hi. reflexivity.
Qed.

End LoopClaims.

Section LoopScenarios.
Import Inference.

Local Open Scope Z_scope.

Lemma tally_counts_classified_frames_witness :
  (classify stub_libs 2 = Some 1 /\
   LiveVideo.active_count
     (LiveVideo.update_frame stub_libs (Some 2) (LiveVideo.init stub_libs true))
   = 0 + 1) /\
  (classify stub_libs 3 = Some 0 /\
   LiveVideo.idle_count
     (LiveVideo.update_frame stub_libs (Some 3) (LiveVideo.init stub_libs true))
   = 0 + 1) /\
  LiveVideo.tally
    (LiveVideo.run stub_libs [Some 2; None; Some 3; Some 13; Some 4]
       (LiveVideo.init stub_libs true))
  = 3 /\
  Mp4Video.idle_count
    (Mp4Video.analyze_frame stub_libs 3 (Mp4Video.init stub_libs)) = 0 + 1 /\
  Mp4Video.tally
    (Mp4Video.analyze_all stub_libs [2; 3; 13; 4] (Mp4Video.init stub_libs)) = 3.
Proof.
  destruct (tally_counts_classified_frames stub_libs)
    as (Hlive & Hrun & Hmp4 & Hall).
  split; [|split; [|split; [|split]]].
  - split; [reflexivity|].
    apply (Hlive (LiveVideo.init stub_libs true) 2 1 eq_refl eq_refl).
    reflexivity.
  - split; [reflexivity|].
    apply (Hlive (LiveVideo.init stub_libs true) 3 0 eq_refl eq_refl).
    discriminate.
  - exact (Hrun (LiveVideo.init stub_libs true)
             [Some 2; None; Some 3; Some 13; Some 4] eq_refl).
  - apply (Hmp4 (Mp4Video.init stub_libs) 3 0 eq_refl). discriminate.
  - exact (Hall (Mp4Video.init stub_libs) [2; 3; 13; 4]).
Defined.

Lemma no_classifier_no_tally_witness :
  joblib_load no_model_libs = None /\
  let s' := LiveVideo.run no_model_libs [Some 1; Some 2; None; Some 3]
              (LiveVideo.init no_model_libs true) in
  LiveVideo.active_count s' = 0 /\ LiveVideo.idle_count s' = 0 /\
  LiveVideo.pred_label s' = Initializing /\
  LiveVideo.alert_label s' = LiveVideo.SystemReady /\
  LiveVideo.video_label s' = [1; 2; 3].
Proof.
  split; [reflexivity|].
  destruct (no_classifier_no_tally no_model_libs (or_introl eq_refl))
    as (_ & _ & Hinit & _).
  exact (Hinit [Some 1; Some 2; None; Some 3]).
Defined.

Lemma prediction_error_contained_witness :
  models_loaded stub_libs = true /\
  classify stub_libs 13 = None /\
  let s' := LiveVideo.update_frame stub_libs (Some 13)
              (LiveVideo.init stub_libs true) in
  LiveVideo.pred_label s' = PredictionError /\
  LiveVideo.active_count s' = 0 /\
  LiveVideo.idle_count s' = 0 /\
  LiveVideo.video_label s' = [13] /\
  LiveVideo.tally (LiveVideo.run stub_libs [Some 13; Some 2; Some 3]
                     (LiveVideo.init stub_libs true)) = 2.
Proof.
  split; [reflexivity|]. split; [reflexivity|].
  destruct (prediction_error_contained stub_libs eq_refl) as (Hlive & _).
  destruct (Hlive (LiveVideo.init stub_libs true) 13 eq_refl eq_refl)
    as (Hl & Ha & Hi & Hv & _ & Hrest).
  split; [exact Hl|]. split; [exact Ha|]. split; [exact Hi|].
  split; [exact Hv|]. apply (Hrest [Some 2; Some 3]).
Defined.

End LoopScenarios.

(* ================================================================== *)
(** * Properties of the worker thread *)
(* ================================================================== *)

Section WorkerFacts.
Import Inference Mp4Video.
Context (L : Libs).

Local Open Scope Z_scope.

(** The emitted prediction is the classifier's when it answers and 0 in
    every other case. *)
Lemma sampled_prediction_classify (frame : Frame L) :
  sampled_prediction L frame
  = match classify L frame with Some pred => pred | None => 0 end.
Proof.
  unfold sampled_prediction, classify, try_predict.
  destruct (preprocess L frame) as [x|];
    destruct (clf L) as [c|]; destruct (feature_extractor L) as [e|];
    reflexivity.
Qed.

Lemma run_loop_spec (rest : list (Frame L)) :
  forall fc emitted,
    run_loop L rest fc emitted
    = emitted ++ map (emission_of L)
                     (filter (fun p => fst p mod 5 =? 0) (enumerate_from L fc rest)).
Proof.
  induction rest as [|frame rest IH]; intros fc emitted; cbn.
  - now rewrite app_nil_r.
  - rewrite IH. destruct (fc mod 5 =? 0); cbn.
    + now rewrite <- app_assoc.
    + reflexivity.
Qed.

Lemma run_spec (video : list (Frame L)) :
  run L true video = map (emission_of L) (sampled_frames L video).
Proof. unfold run, sampled_frames. now rewrite run_loop_spec. Qed.

Lemma ceil_div_step (fc : Z) :
  0 <= fc ->
  ceil_div (fc + 1) 5 = ceil_div fc 5 + (if fc mod 5 =? 0 then 1 else 0).
Proof.
  intros Hfc. unfold ceil_div.
  destruct (fc mod 5 =? 0) eqn:E;
    [apply Z.eqb_eq in E | apply Z.eqb_neq in E];
    Z.div_mod_to_equations; lia.
Qed.

Lemma sampled_count (rest : list (Frame L)) :
  forall fc, 0 <= fc ->
    Z.of_nat (length (filter (fun p => fst p mod 5 =? 0) (enumerate_from L fc rest)))
    = ceil_div (fc + Z.of_nat (length rest)) 5 - ceil_div fc 5.
Proof.
  induction rest as [|frame rest IH]; intros fc Hfc.
  - cbn. rewrite Z.add_0_r. lia.
  - cbn [enumerate_from filter fst length].
    replace (fc + Z.of_nat (S (length rest)))
      with ((fc + 1) + Z.of_nat (length rest)) by lia.
    pose proof (IH (fc + 1) ltac:(lia)) as IH'.
    pose proof (ceil_div_step fc Hfc) as Hstep.
    destruct (fc mod 5 =? 0); cbn [length]; lia.
Qed.

Lemma enumerate_from_fst (rest : list (Frame L)) :
  forall fc, map fst (enumerate_from L fc rest)
             = map (fun k => fc + Z.of_nat k) (seq 0 (length rest)).
Proof.
  induction rest as [|frame rest IH]; intros fc; cbn; [reflexivity|].
  rewrite IH, <- seq_shift, map_map. f_equal; [lia|].
  apply map_ext. intros k. lia.
Qed.

(** C9. The worker thread emits exactly one [frame_processed] for every
    frame whose number is a multiple of 5, in order and with that frame and
    number; when the classifier or the extractor is unavailable, or the
    prediction raises for the frame, the emitted prediction is 0; so with a
    classifier that answers 0 or 1 every emitted prediction is 0 or 1. *)
Theorem worker_reports_idle_on_failure (video : list (Frame L)) :
  map (fun e : emission L => (snd e, fst (fst e))) (run L true video)
  = sampled_frames L video /\
  (forall f p i,
      In (f, p, i) (run L true video) ->
      models_loaded L = false \/ classify L f = None -> p = 0) /\
  ((forall f q, classify L f = Some q -> q = 0 \/ q = 1) ->
   forall f p i, In (f, p, i) (run L true video) -> p = 0 \/ p = 1).
Proof.
  rewrite run_spec. split; [|split].
  - rewrite map_map. unfold emission_of. cbn.
    rewrite <- (map_id (sampled_frames L video)) at 2.
    apply map_ext. now intros [i f].
  - intros f p i Hin Hfail. apply in_map_iff in Hin as ([j g] & E & _).
    unfold emission_of in E. cbn in E. inversion E; subst.
    rewrite sampled_prediction_classify.
    destruct Hfail as [Hm | ->]; [|reflexivity].
    unfold classify. unfold models_loaded in Hm.
    destruct (clf L), (feature_extractor L); try reflexivity; discriminate.
  - intros Hbin f p i Hin. apply in_map_iff in Hin as ([j g] & E & _).
    unfold emission_of in E. cbn in E. inversion E; subst.
    rewrite sampled_prediction_classify.
    destruct (classify L f) as [q|] eqn:Hq; [now apply (Hbin f)|now left].
Qed.

End WorkerFacts.

Section WorkerScenario.
Import Inference Mp4Video.

Local Open Scope Z_scope.

Lemma stub_classifier_binary (f q : Z) :
  classify stub_libs f = Some q -> q = 0 \/ q = 1.
Proof.
  unfold classify, try_predict, predict_with. cbn.
  destruct (f <? 0); [discriminate|]. destruct (f =? 13); [discriminate|].
  destruct (Z.even f); intros E; inversion E; auto.
Qed.

Lemma worker_reports_idle_on_failure_witness :
  run stub_libs true [0; 1; 2; 3; 4; 13; 6; 7; 8; 9; -1; 11]
  = [(0, 1, 0); (13, 0, 5); (-1, 0, 10)] /\
  (classify stub_libs 13 = None /\ 0 = 0) /\
  (1 = 0 \/ 1 = 1) /\
  (models_loaded no_model_libs = false /\
   forall f p i, In (f, p, i) (run no_model_libs true (numbered_video 12)) -> p = 0).
Proof.
  split; [reflexivity|].
  destruct (worker_reports_idle_on_failure stub_libs
              [0; 1; 2; 3; 4; 13; 6; 7; 8; 9; -1; 11]) as (_ & Hfail & Hbin).
  destruct (worker_reports_idle_on_failure no_model_libs (numbered_video 12))
    as (_ & Hnone & _).
  split; [split; [reflexivity|]|split; [|split; [reflexivity|]]].
  - apply (Hfail 13 0 5); [cbn; auto|now right].
  - apply (Hbin stub_classifier_binary 0 1 0). cbn. auto.
  - intros f p i Hin. apply (Hnone f p i Hin). now left.
Defined.

End WorkerScenario.

(* ================================================================== *)
(** * Properties of the MP4 page *)
(* ================================================================== *)

Section PageFacts.
Import Inference Mp4Video.
Context (L : Libs).

Local Open Scope Z_scope.

Lemma extends_refl (s : page L) : extends L s s.
Proof. split; exists []; now rewrite app_nil_r. Qed.

Lemma extends_trans (s1 s2 s3 : page L) :
  extends L s1 s2 -> extends L s2 s3 -> extends L s1 s3.
Proof.
  intros [(d & Hd) (a & Ha)] [(d' & Hd') (a' & Ha')]. split.
  - exists (d ++ d'). now rewrite Hd', Hd, app_assoc.
  - exists (a ++ a'). now rewrite Ha', Ha, app_assoc.
Qed.

(** Two pages with the same logs extend the same pages. *)
Lemma extends_same (s s' : page L) :
  video_label s' = video_label s -> analyzed s' = analyzed s -> extends L s s'.
Proof. intros Hv Ha. split; exists []; now rewrite app_nil_r. Qed.

Lemma page_read_logs (s : page L) :
  video_label (snd (page_read L s)) = video_label s /\
  analyzed (snd (page_read L s)) = analyzed s.
Proof.
  unfold page_read. destruct (cap s) as [c|]; [|now split].
  destruct (cap_read L c) as [r c']. now split.
Qed.

Lemma page_read_extends (s s1 : page L) r :
  page_read L s = (r, s1) -> extends L s s1.
Proof.
  intros E. destruct (page_read_logs s) as (Hv & Ha). rewrite E in Hv, Ha.
  now apply extends_same.
Qed.

Lemma page_set_pos_extends (n : Z) (s : page L) : extends L s (page_set_pos L n s).
Proof. unfold page_set_pos. destruct (cap s); now apply extends_same. Qed.

Lemma display_frame_extends (f : Frame L) (s : page L) :
  extends L s (display_frame L f s).
Proof. split; [now exists [f] | exists []; cbn; now rewrite app_nil_r]. Qed.

Lemma analyze_frame_extends (f : Frame L) (s : page L) :
  extends L s (analyze_frame L f s).
Proof.
  destruct (analyze_frame_frame L s f) as (_ & _ & _ & _ & _ & Hv). cbv zeta in Hv.
  split; [exists []; now rewrite Hv, app_nil_r|].
  unfold analyze_frame. destruct (clf L), (feature_extractor L);
    try (exists []; now rewrite app_nil_r).
  destruct (try_predict L _ _ f) as [pred|]; [destruct (pred =? 1)|];
    now exists [f].
Qed.

Lemma seek_frame_extends (n : Z) (s : page L) : extends L s (seek_frame L n s).
Proof.
  unfold seek_frame. destruct (cap_is_open L s); [|apply extends_refl].
  destruct (page_read L _) as [[f|] s1] eqn:E.
  - eapply extends_trans; [|apply analyze_frame_extends].
    eapply extends_trans; [|apply display_frame_extends].
    eapply extends_trans; [|exact (page_read_extends _ _ _ E)].
    eapply extends_trans; [apply (page_set_pos_extends n)|].
    now apply extends_same.
  - eapply extends_trans; [|exact (page_read_extends _ _ _ E)].
    eapply extends_trans; [apply (page_set_pos_extends n)|].
    now apply extends_same.
Qed.

Lemma slider_setValue_extends (v : Z) (s : page L) :
  extends L s (slider_setValue L v s).
Proof.
  unfold slider_setValue. destruct (QSlider.setValue v (frame_slider s)) as [sl [w|]].
  - cbn. eapply extends_trans; [|apply seek_frame_extends]. now apply extends_same.
  - cbn. now apply extends_same.
Qed.

Lemma stop_video_extends (s : page L) : extends L s (stop_video L s).
Proof.
  unfold stop_video. cbn [cap set_is_playing].
  destruct (cap s) as [c|]; [|now apply extends_same].
  destruct (page_read L _) as [[f|] s1] eqn:E.
  - eapply extends_trans; [|apply display_frame_extends].
    eapply extends_trans; [|exact (page_read_extends _ _ _ E)].
    eapply extends_trans; [|apply slider_setValue_extends].
    eapply extends_trans; [|apply extends_same; reflexivity].
    eapply extends_trans; [|apply (page_set_pos_extends 0)].
    now apply extends_same.
  - eapply extends_trans; [|exact (page_read_extends _ _ _ E)].
    eapply extends_trans; [|apply slider_setValue_extends].
    eapply extends_trans; [|apply extends_same; reflexivity].
    eapply extends_trans; [|apply (page_set_pos_extends 0)].
    now apply extends_same.
Qed.

(** A playback tick that reads a frame displays it and hands it to
    [analyze_frame], whatever its number. *)
Lemma update_frame_shows_and_analyzes (s s1 : page L) (f : Frame L) :
  cap_is_open L s = true -> is_playing s = true ->
  page_read L s = (Some f, s1) ->
  (exists d1 d2, video_label (update_frame L s) = video_label s ++ d1 ++ f :: d2) /\
  (models_loaded L = true ->
   exists a1 a2, analyzed (update_frame L s) = analyzed s ++ a1 ++ f :: a2).
Proof.
  intros Ho Hp Hr. unfold update_frame. rewrite Ho, Hp, Hr. cbn [andb].
  set (s2 := set_current_frame L (current_frame s1 + 1) s1).
  set (s3 := slider_setValue L (current_frame s2) s2).
  set (s4 := display_frame L f s3).
  set (s5 := analyze_frame L f s4).
  assert (H13 : extends L s s3).
  { eapply extends_trans; [exact (page_read_extends _ _ _ Hr)|].
    eapply extends_trans; [|apply slider_setValue_extends].
    now apply extends_same. }
  assert (Hend : extends L s5
            (if current_frame s5 >=? total_frames s5 - 1
             then stop_video L s5 else s5)).
  { destruct (_ >=? _); [apply stop_video_extends | apply extends_refl]. }
  destruct H13 as [(d1 & Hd1) (a1 & Ha1)].
  destruct Hend as [(d2 & Hd2) (a2 & Ha2)].
  destruct (analyze_frame_frame L s4 f) as (_ & _ & _ & _ & _ & Hv45).
  cbv zeta in Hv45. fold s5 in Hv45.
  split.
  - exists d1, d2. rewrite Hd2, Hv45. unfold s4. cbn [video_label display_frame].
    rewrite Hd1, <- !app_assoc. reflexivity.
  - intros Hm. exists a1, a2. rewrite Ha2.
    assert (Ha45 : analyzed s5 = analyzed s4 ++ [f]).
    { unfold s5. destruct (classify L f) as [pred|] eqn:Hc.
      - now destruct (analyze_frame_ok L s4 f pred Hc) as (_ & _ & _ & ->).
      - now destruct (analyze_frame_error L s4 f Hm Hc) as (_ & _ & _ & ->). }
    rewrite Ha45. unfold s4. cbn [analyzed display_frame].
    rewrite Ha1, <- !app_assoc. reflexivity.
Qed.

Lemma map_fst_filter {A : Type} (P : Z -> bool) (l : list (Z * A)) :
  map fst (filter (fun p => P (fst p)) l) = filter P (map fst l).
Proof.
  induction l as [|[i a] l IH]; cbn; [reflexivity|].
  destruct (P i); cbn; now rewrite IH.
Qed.

(** C1, as the code has it.  The decimation by 5 lives in the worker
    thread only: [VideoProcessor.run] emits the frames number 0, 5, 10, ...
    and no other, ceil(N/5) of the N frames of a file.  The playback slot
    of the page, [MP4VideoPage.update_frame], displays every frame it reads
    and, with the models loaded, hands every one of them to the
    classifier. *)
Theorem decimation_only_in_worker :
  (forall video,
      map (fun e : emission L => snd e) (run L true video)
      = filter (fun i => i mod 5 =? 0) (map Z.of_nat (seq 0 (length video))) /\
      Z.of_nat (length (run L true video))
      = ceil_div (Z.of_nat (length video)) 5) /\
  (forall (s s1 : page L) f,
      cap_is_open L s = true -> is_playing s = true ->
      page_read L s = (Some f, s1) ->
      (exists d1 d2,
          video_label (update_frame L s) = video_label s ++ d1 ++ f :: d2) /\
      (models_loaded L = true ->
       exists a1 a2, analyzed (update_frame L s) = analyzed s ++ a1 ++ f :: a2)).
Proof.
  split.
  - intros video. rewrite run_spec. split.
    + rewrite map_map. unfold emission_of. cbn [snd].
      change (fun x : Z * Frame L => fst x) with (@fst Z (Frame L)).
      unfold sampled_frames.
      rewrite (map_fst_filter (fun i => i mod 5 =? 0)), enumerate_from_fst.
      reflexivity.
    + rewrite length_map. unfold sampled_frames.
      rewrite (sampled_count L video 0) by lia.
      unfold ceil_div. cbn. lia.
  - intros s s1 f. apply update_frame_shows_and_analyzes.
Qed.

End PageFacts.

Section PlaybackScenario.
Import Inference Mp4Video.

Local Open Scope Z_scope.

(** C1 as stated fails on the page: the playback of a file of 10 frames
    with a working classifier runs to its end, and it has classified 19
    frames, among them frame 1, not ceil(10/5) = 2.  Each tick analyzes the
    frame it reads, and the [setValue] calls of [update_frame] and
    [stop_video] reach [seek_frame] through [valueChanged], which analyzes
    the frame it seeks to as well. *)
Lemma playback_classifies_every_frame :
  let s := playback stub_libs (numbered_video 10) 20 in
  is_playing s = false /\
  analyzed s = [1; 0; 2; 2; 3; 3; 4; 4; 5; 5; 6; 6; 7; 7; 8; 8; 9; 9; 0] /\
  tally s = 19 /\
  tally s <> ceil_div 10 5.
Proof. cbv zeta. repeat split. vm_compute. discriminate. Qed.

Lemma decimation_only_in_worker_witness :
  let s := play_video stub_libs
             (load_video stub_libs (open_file stub_libs (numbered_video 10))
                (init stub_libs)) in
  (cap_is_open stub_libs s = true /\ is_playing s = true /\
   fst (page_read stub_libs s) = Some 0) /\
  (exists d1 d2,
      video_label (update_frame stub_libs s) = video_label s ++ d1 ++ 0 :: d2) /\
  (exists a1 a2,
      analyzed (update_frame stub_libs s) = analyzed s ++ a1 ++ 0 :: a2).
Proof.
  cbv zeta. split; [repeat split|].
  destruct (decimation_only_in_worker stub_libs) as (_ & Hpage).
  destruct (Hpage
              (play_video stub_libs
                 (load_video stub_libs (open_file stub_libs (numbered_video 10))
                    (init stub_libs)))
              _ 0 eq_refl eq_refl eq_refl) as (Hshow & Hanalyze).
  split; [exact Hshow | exact (Hanalyze eq_refl)].
Defined.

End PlaybackScenario.

Section SeekFacts.
Import Inference Mp4Video.
Context (L : Libs).

Local Open Scope Z_scope.

(** A seek to a frame of the open file displays that frame and hands it to
    [analyze_frame]; the file itself and the playing flag stay as they
    were. *)
Lemma seek_frame_ok (s : page L) (n : Z) (f : Frame L) :
  page_frame_at L s n = Some f ->
  exists s1,
    seek_frame L n s = analyze_frame L f (display_frame L f s1) /\
    active_count s1 = active_count s /\ idle_count s1 = idle_count s /\
    video_label s1 = video_label s /\ analyzed s1 = analyzed s /\
    is_playing s1 = is_playing s /\
    (forall m, page_frame_at L s1 m = page_frame_at L s m).
Proof.
  unfold page_frame_at, seek_frame, cap_is_open.
  destruct (cap s) as [c|] eqn:Hcap; [|discriminate].
  destruct (isOpened c) eqn:Hopen; [|discriminate].
  intros Hf. unfold page_set_pos. rewrite Hcap.
  unfold page_read. cbn [cap set_current_frame set_cap].
  assert (Hread : cap_read L (cap_set_pos L n c)
                  = (Some f, {| isOpened := isOpened c; frames := frames c;
                                frame_count := frame_count c; pos := n + 1 |})).
  { unfold cap_read, cap_set_pos. cbn. now rewrite Hopen, Hf. }
  rewrite Hread. eexists. split; [reflexivity|].
  cbn. rewrite Hopen. auto 10.
Qed.

Lemma seek_frame_tally (s : page L) (n : Z) (f : Frame L) (pred : Z) :
  page_frame_at L s n = Some f -> classify L f = Some pred ->
  tally (seek_frame L n s) = tally s + 1 /\
  analyzed (seek_frame L n s) = analyzed s ++ [f] /\
  video_label (seek_frame L n s) = video_label s ++ [f] /\
  is_playing (seek_frame L n s) = is_playing s /\
  (forall m, page_frame_at L (seek_frame L n s) m = page_frame_at L s m).
Proof.
  intros Hf Hp.
  destruct (seek_frame_ok s n f Hf) as (s1 & -> & Ha & Hi & Hv & Han & Hpl & Hfr).
  destruct (analyze_frame_ok L (display_frame L f s1) f pred Hp)
    as (Ha' & Hi' & _ & Hlog).
  destruct (analyze_frame_frame L (display_frame L f s1) f)
    as (Hcap & Hplay & _ & _ & _ & Hvid).
  cbv zeta in *. repeat split.
  - unfold tally. rewrite Ha', Hi'. cbn. unfold tally.
    rewrite Ha, Hi. destruct (pred =? 1); lia.
  - rewrite Hlog. cbn. now rewrite Han.
  - rewrite Hvid. cbn. now rewrite Hv.
  - rewrite Hplay. exact Hpl.
  - intros m. rewrite <- Hfr. unfold page_frame_at. now rewrite Hcap.
Qed.

(** [seek_frame] does not touch the slider. *)
Lemma seek_frame_slider (n : Z) (s : page L) :
  frame_slider (seek_frame L n s) = frame_slider s.
Proof.
  destruct s as [cap0 pl cur tot ac ic lab sl vl an].
  unfold seek_frame, cap_is_open, page_read, page_set_pos, cap_read.
  cbn -[analyze_frame].
  destruct cap0 as [[[|] fs fc p]|]; cbn -[analyze_frame]; try reflexivity.
  destruct (frame_at L fs n) as [f|]; cbn -[analyze_frame]; [|reflexivity].
  match goal with
  | |- frame_slider (analyze_frame L f ?x) = _ =>
      now destruct (analyze_frame_frame L x f) as (_ & _ & _ & _ & -> & _)
  end.
Qed.

(** The user moving the slider to a value of its range other than the
    current one: the widget stores the value and [valueChanged] reaches
    [seek_frame]. *)
Lemma slider_moved (s : page L) (v : Z) :
  QSlider.minimum (frame_slider s) <= v <= QSlider.maximum (frame_slider s) ->
  v <> QSlider.value (frame_slider s) ->
  handle L (SliderMoved v) s
  = seek_frame L v
      (set_frame_slider L
         {| QSlider.minimum := QSlider.minimum (frame_slider s);
            QSlider.maximum := QSlider.maximum (frame_slider s);
            QSlider.value := v |} s).
Proof.
  intros Hrange Hne. cbn [handle]. unfold slider_setValue, QSlider.setValue.
  replace (QSlider.qBound (QSlider.minimum (frame_slider s)) v
             (QSlider.maximum (frame_slider s))) with v
    by (unfold QSlider.qBound; lia).
  destruct (Z.eqb_spec v (QSlider.value (frame_slider s))) as [E|_];
    [now destruct Hne|].
  reflexivity.
Qed.

(** A slider move to a frame of the file that classifies. *)
Lemma slider_move_counts (s : page L) (v : Z) (f : Frame L) (pred : Z) :
  QSlider.minimum (frame_slider s) <= v <= QSlider.maximum (frame_slider s) ->
  v <> QSlider.value (frame_slider s) ->
  page_frame_at L s v = Some f -> classify L f = Some pred ->
  let s' := handle L (SliderMoved v) s in
  tally s' = tally s + 1 /\
  analyzed s' = analyzed s ++ [f] /\
  is_playing s' = is_playing s /\
  frame_slider s' = {| QSlider.minimum := QSlider.minimum (frame_slider s);
                       QSlider.maximum := QSlider.maximum (frame_slider s);
                       QSlider.value := v |} /\
  (forall m, page_frame_at L s' m = page_frame_at L s m).
Proof.
  intros Hrange Hne Hf Hp. cbv zeta. rewrite (slider_moved s v Hrange Hne).
  set (sl := {| QSlider.minimum := QSlider.minimum (frame_slider s);
                QSlider.maximum := QSlider.maximum (frame_slider s);
                QSlider.value := v |}).
  destruct (seek_frame_tally (set_frame_slider L sl s) v f pred Hf Hp)
    as (Ht & Ha & _ & Hpl & Hfr).
  rewrite Ht, Ha, Hpl, seek_frame_slider.
  repeat split. intros m. now rewrite Hfr.
Qed.

Lemma slider_moves_tally (vs : list Z) :
  forall s : page L,
    each_differs (QSlider.value (frame_slider s)) vs ->
    (forall v, In v vs ->
       QSlider.minimum (frame_slider s) <= v <= QSlider.maximum (frame_slider s) /\
       exists f pred, page_frame_at L s v = Some f /\ classify L f = Some pred) ->
    tally (handle_all L (map SliderMoved vs) s) = tally s + Z.of_nat (length vs) /\
    analyzed (handle_all L (map SliderMoved vs) s)
    = analyzed s
      ++ flat_map (fun v => match page_frame_at L s v with
                            | Some f => [f]
                            | None => []
                            end) vs.
Proof.
  induction vs as [|v vs IH]; intros s Hdiff Hok.
  - cbn. rewrite app_nil_r. split; [lia|reflexivity].
  - destruct Hdiff as (Hne & Hdiff).
    destruct (Hok v (or_introl eq_refl)) as (Hrange & f & pred & Hf & Hp).
    destruct (slider_move_counts s v f pred Hrange Hne Hf Hp)
      as (Ht & Ha & _ & Hsl & Hfr).
    change (handle_all L (map SliderMoved (v :: vs)) s)
      with (handle_all L (map SliderMoved vs) (handle L (SliderMoved v) s)).
    destruct (IH (handle L (SliderMoved v) s)) as (Ht' & Ha').
    + now rewrite Hsl.
    + intros w Hw. destruct (Hok w (or_intror Hw)) as (Hr & g & q & Hg & Hq).
      rewrite Hsl. cbn. split; [exact Hr|]. exists g, q. now rewrite Hfr.
    + rewrite Ht', Ha', Ht, Ha. cbn [length flat_map]. rewrite Hf.
      split; [lia|]. rewrite <- app_assoc. cbn [app]. f_equal. f_equal.
      apply flat_map_ext. intros w. now rewrite Hfr.
Qed.

(** C10. With the model loaded and answering, every slider seek, that is
    the slider moved to a value of its range other than its current one,
    reaches [seek_frame] through [valueChanged]: the frame with that number
    is classified and the tally grows by one, whether the video is playing
    or not.  So the tally grows by one per slider move of a sequence in
    which every move changes the value, and moving to a frame, away and
    back counts that frame twice. *)
Theorem seek_counts_frames :
  (forall (s : page L) v f pred,
      QSlider.minimum (frame_slider s) <= v <= QSlider.maximum (frame_slider s) ->
      v <> QSlider.value (frame_slider s) ->
      page_frame_at L s v = Some f -> classify L f = Some pred ->
      let s' := handle L (SliderMoved v) s in
      tally s' = tally s + 1 /\
      analyzed s' = analyzed s ++ [f] /\
      is_playing s' = is_playing s /\
      QSlider.value (frame_slider s') = v) /\
  (forall (s : page L) vs,
      each_differs (QSlider.value (frame_slider s)) vs ->
      (forall v, In v vs ->
         QSlider.minimum (frame_slider s) <= v <= QSlider.maximum (frame_slider s) /\
         exists f pred, page_frame_at L s v = Some f /\ classify L f = Some pred) ->
      tally (handle_all L (map SliderMoved vs) s)
      = tally s + Z.of_nat (length vs)) /\
  (forall (s : page L) v w fv fw pv pw,
      v <> QSlider.value (frame_slider s) -> w <> v ->
      QSlider.minimum (frame_slider s) <= v <= QSlider.maximum (frame_slider s) ->
      QSlider.minimum (frame_slider s) <= w <= QSlider.maximum (frame_slider s) ->
      page_frame_at L s v = Some fv -> classify L fv = Some pv ->
      page_frame_at L s w = Some fw -> classify L fw = Some pw ->
      let s' := handle_all L [SliderMoved v; SliderMoved w; SliderMoved v] s in
      tally s' = tally s + 3 /\
      analyzed s' = analyzed s ++ [fv; fw; fv]).
Proof.
  split; [|split].
  - intros s v f pred Hrange Hne Hf Hp. cbv zeta.
    destruct (slider_move_counts s v f pred Hrange Hne Hf Hp)
      as (Ht & Ha & Hpl & Hsl & _).
    rewrite Hsl. auto.
  - intros s vs Hdiff Hok. now apply slider_moves_tally.
  - intros s v w fv fw pv pw Hv Hw Hrv Hrw Hfv Hpv Hfw Hpw. cbv zeta.
    destruct (slider_moves_tally [v; w; v] s) as (Ht & Ha).
    + cbn. repeat split; auto.
    + intros u [<-|[<-|[<-|[]]]]; split; auto;
        [exists fv, pv | exists fw, pw | exists fv, pv]; auto.
    + change (map SliderMoved [v; w; v])
        with [@SliderMoved L v; SliderMoved w; SliderMoved v] in Ht, Ha.
      rewrite Ht, Ha. cbn [flat_map length]. rewrite Hfv, Hfw.
      split; [lia|reflexivity].
Qed.

End SeekFacts.

Section SeekScenario.
Import Inference Mp4Video.

Local Open Scope Z_scope.

Lemma seek_counts_frames_witness :
  let s := load_video stub_libs (open_file stub_libs (numbered_video 10))
             (init stub_libs) in
  (QSlider.value (frame_slider s) = 0 /\ QSlider.maximum (frame_slider s) = 9 /\
   page_frame_at stub_libs s 3 = Some 3 /\ classify stub_libs 3 = Some 0 /\
   is_playing s = false) /\
  tally (handle stub_libs (SliderMoved 3) s) = 0 + 1 /\
  tally (handle_all stub_libs (map SliderMoved [3; 4; 3]) s) = 0 + 3 /\
  analyzed (handle_all stub_libs [SliderMoved 3; SliderMoved 4; SliderMoved 3] s)
  = [3; 4; 3].
Proof.
  cbv zeta. split; [repeat split|].
  destruct (seek_counts_frames stub_libs) as (Hone & Hmany & Htwice).
  set (s := load_video stub_libs (open_file stub_libs (numbered_video 10))
              (init stub_libs)).
  assert (Hrange : forall v, 0 <= v <= 9 ->
            QSlider.minimum (frame_slider s) <= v <= QSlider.maximum (frame_slider s))
    by (intros v Hv; exact Hv).
  split; [|split].
  - apply (Hone s 3 3 0); [apply Hrange; lia | discriminate | reflexivity
                          | reflexivity].
  - apply (Hmany s [3; 4; 3]).
    + cbn. repeat split; discriminate.
    + intros v [<-|[<-|[<-|[]]]]; (split; [apply Hrange; lia|]);
        eexists; eexists; split; reflexivity.
  - apply (Htwice s 3 4 3 4 0 1); try reflexivity; try discriminate;
      apply Hrange; lia.
Defined.

End SeekScenario.

(* ================================================================== *)
(** * Properties of the trainer *)
(* ================================================================== *)

Section TrainerFacts.
Import TrainModel.
Context (L : Sklearn).


Lemma matches_le (y_true y_pred : list Z) :
  (matches y_true y_pred <= length y_true)%nat.
Proof.
  revert y_pred; induction y_true as [|t y_true IH]; intros [|p y_pred]; cbn;
    try lia.
  specialize (IH y_pred). destruct (Z.eqb t p); lia.
Qed.





End TrainerFacts.

Section TrainerScenario.
Import TrainModel.



(** The run of the toy library on twelve samples. *)
Example trainer_scenario :
  option_map (accuracies toy_sklearn)
    (train_model toy_sklearn [1; 2; 3; 4; 5; 6; 7; 8; 9; 10; 11; 12]%Z
       [0; 1; 0; 1; 1; 1; 0; 0; 1; 0; 1; 1]%Z)
  = Some [2 # 3; 1 # 3; 2 # 2; 0 # 2; 1 # 2].
Proof. reflexivity. Qed.

End TrainerScenario.

(* ================================================================== *)
(** * Further properties of the dataset builder *)
(* ================================================================== *)

Section SubseqFacts.
Context {A : Type}.

Lemma subseq_refl (l : list A) : subseq l l.
Proof. induction l; constructor; assumption. Qed.

Lemma subseq_nil_l (l : list A) : subseq [] l.
Proof. induction l; constructor; assumption. Qed.

Lemma subseq_app (l1 l2 k1 k2 : list A) :
  subseq l1 k1 -> subseq l2 k2 -> subseq (l1 ++ l2) (k1 ++ k2).
Proof.
  intros H1 H2. induction H1; cbn; [exact H2 | constructor .. ]; assumption.
Qed.

Lemma subseq_length (l k : list A) : subseq l k -> (length l <= length k)%nat.
Proof. induction 1; cbn; lia. Qed.

Lemma subseq_trans (l1 l2 l3 : list A) :
  subseq l1 l2 -> subseq l2 l3 -> subseq l1 l3.
Proof.
  intros H12 H23. revert l1 H12.
  induction H23 as [|x l2 l3 _ IH|x l2 l3 _ IH]; intros l1 H12.
  - exact H12.
  - constructor. now apply IH.
  - inversion H12; subst; constructor; now apply IH.
Qed.

End SubseqFacts.

Section StringSuffix.

Lemma endswith_spec (suf s : string) :
  PyStr.endswith suf s = true <-> PyStr.ends_with suf s.
Proof.
  split.
  - induction s as [|c s IH]; cbn [PyStr.endswith]; intros H.
    + rewrite orb_false_r in H. apply String.eqb_eq in H. subst.
      now exists EmptyString.
    + apply orb_true_iff in H as [H|H].
      * apply String.eqb_eq in H. subst. now exists EmptyString.
      * destruct (IH H) as (stem & ->). now exists (String c stem).
  - intros (stem & ->). induction stem as [|c stem IH].
    + cbn [String.append]. destruct suf; cbn [PyStr.endswith];
        rewrite String.eqb_refl; reflexivity.
    + cbn [String.append PyStr.endswith]. rewrite IH. apply orb_true_r.
Qed.

End StringSuffix.

Section BuilderMore.
Import Preprocessing.
Context (W : World).

Local Open Scope Z_scope.

(** X3. The samples of a listing are the samples of its first part
    followed by the samples of the rest. *)
Theorem load_loop_concat dir n (files1 files2 : list string) :
  load_loop W dir n (files1 ++ files2) ([], [])
  = (fst (load_loop W dir n files1 ([], [])) ++ fst (load_loop W dir n files2 ([], [])),
     snd (load_loop W dir n files1 ([], [])) ++ snd (load_loop W dir n files2 ([], []))).
Proof. rewrite load_loop_app. apply load_loop_acc. Qed.

Lemma load_loop_aligned dir n files :
  exists kept,
    subseq kept files /\
    Forall2 (decoded_as W dir n) kept (fst (load_loop W dir n files ([], []))) /\
    Forall2 (fun f l => label_of W f = Some l) kept
            (snd (load_loop W dir n files ([], []))).
Proof.
  induction files as [|f files (kept & Hsub & HX & Hy)].
  - exists []. cbn. repeat split; constructor.
  - change (f :: files) with ([f] ++ files).
    rewrite load_loop_app, load_loop_acc.
    cbn [fst snd].
    destruct (load_step_cases W dir n ([], []) f)
      as [E|(label & img & r & Hl & Hi & Hr & E)];
      unfold load_loop at 1 3; cbn [fold_left]; rewrite E; cbn [fst snd app].
    + exists kept. repeat split; auto. now constructor.
    + exists (f :: kept). repeat split.
      * now constructor.
      * constructor; [now exists img | exact HX].
      * constructor; assumption.
Qed.

Lemma load_data_loop dir n X y :
  load_data W dir n = Some (X, y) ->
  match fs W dir with
  | Directory entries =>
      (X, y) = load_loop W dir n (filter (is_image_file W) entries) ([], [])
  | _ => (X, y) = ([], [])
  end.
Proof.
  unfold load_data. destruct (fs W dir) as [| |entries].
  - now intros [= <- <-].
  - discriminate.
  - cbv zeta. destruct (filter (is_image_file W) entries) eqn:E.
    + now intros [= <- <-].
    + now intros [= <-].
Qed.

(** X1. The two arrays are aligned and in listing order: there are image
    files of the directory, in the order of the listing, such that the
    i-th image is the i-th of these files decoded and resized and the i-th
    label is the label of that same file. *)
Theorem load_data_aligned dir n entries X y :
  fs W dir = Directory entries ->
  load_data W dir n = Some (X, y) ->
  exists kept,
    subseq kept (filter (is_image_file W) entries) /\
    Forall2 (decoded_as W dir n) kept X /\
    Forall2 (fun f l => label_of W f = Some l) kept y.
Proof.
  intros Hdir Hload. apply load_data_loop in Hload. rewrite Hdir in Hload.
  destruct (load_loop_aligned dir n (filter (is_image_file W) entries))
    as (kept & Hsub & HX & Hy).
  rewrite <- Hload in HX, Hy. now exists kept.
Qed.

Lemma label_of_binary f l : label_of W f = Some l -> l = 0 \/ l = 1.
Proof.
  unfold label_of. destruct (any_in W idle_classes f); [intros [= <-]; auto|].
  destruct (any_in W active_classes f); [intros [= <-]; auto|discriminate].
Qed.

(** X2. Whatever the directory holds, every label [load_data] returns is
    0 or 1. *)
Theorem load_data_labels_binary dir n X y :
  load_data W dir n = Some (X, y) -> Forall (fun l => l = 0 \/ l = 1) y.
Proof.
  intros Hload. apply load_data_loop in Hload.
  destruct (fs W dir) as [| |entries]; try (inversion Hload; constructor).
  destruct (load_loop_aligned dir n (filter (is_image_file W) entries))
    as (kept & _ & _ & Hy).
  rewrite <- Hload in Hy. cbn [snd] in Hy. clear Hload.
  induction Hy as [|f l kept y Hl _ IH]; constructor; auto.
  now apply (label_of_binary f).
Qed.

(** X4. A decoded image for which [cv2.resize] raises is dropped like an
    undecodable one; when the resize fails for every image (a size
    OpenCV rejects), a directory gives the empty pair and no exception. *)
Theorem resize_failure_skipped dir n :
  (forall f img before after acc,
      imread W (path_join W dir f) = ImreadOk img ->
      resize W img n = None ->
      load_loop W dir n (before ++ f :: after) acc
      = load_loop W dir n (before ++ after) acc) /\
  (forall entries,
      fs W dir = Directory entries ->
      (forall img, resize W img n = None) ->
      load_data W dir n = Some ([], [])).
Proof.
  split.
  - intros f img before after acc Hi Hr. apply load_loop_skip.
    intros a. unfold load_step. destruct (label_of W f); [|reflexivity].
    now rewrite Hi, Hr.
  - intros entries Hdir Hnone. unfold load_data. rewrite Hdir. cbv zeta.
    assert (Hloop : forall files acc, load_loop W dir n files acc = acc).
    { induction files as [|f files IH]; intros acc; [reflexivity|].
      change (load_loop W dir n (f :: files) acc)
        with (load_loop W dir n files (load_step W dir n acc f)).
      rewrite IH. unfold load_step. destruct (label_of W f); [|reflexivity].
      destruct (imread W _) as [| |img]; try reflexivity. now rewrite Hnone. }
    destruct (filter (is_image_file W) entries); [reflexivity|].
    now rewrite Hloop.
Qed.

(** X5. An entry of the directory is taken as an image file exactly when
    its lowercased name ends in .jpg, .jpeg or .png. *)
Theorem is_image_file_spec (f : string) :
  is_image_file W f = true <->
  exists ext, In ext [".jpg"; ".jpeg"; ".png"]%string /\
              PyStr.ends_with ext (lower W f).
Proof.
  unfold is_image_file, PyStr.endswith_any. rewrite existsb_exists.
  split; intros (ext & Hin & H); exists ext; split; auto;
    now apply endswith_spec.
Qed.

(** X6. The script writes the archive only with at least one sample, and
    then with the two arrays [load_data] returned, of equal length; on a
    missing directory, or one without image files, it writes nothing and
    does not raise. *)
Theorem main_saves_nonempty :
  (fs W dataset_path = Missing -> main W = Some None) /\
  (forall entries,
      fs W dataset_path = Directory entries ->
      (forall f, In f entries -> is_image_file W f = false) ->
      main W = Some None) /\
  (forall X y,
      main W = Some (Some (X, y)) ->
      X <> [] /\ length X = length y /\
      load_data W dataset_path 128 = Some (X, y)).
Proof.
  split; [|split].
  - intros H. unfold main, load_data. now rewrite H.
  - intros entries H Hnone. unfold main, load_data. rewrite H. cbv zeta.
    assert (E : filter (is_image_file W) entries = []).
    { clear H. induction entries as [|e entries IH]; [reflexivity|].
      cbn [filter]. rewrite (Hnone e (or_introl eq_refl)).
      apply IH. intros f Hf. apply Hnone. now right. }
    now rewrite E.
  - intros X y. unfold main.
    destruct (load_data W dataset_path 128) as [[X' y']|] eqn:Hload;
      [|discriminate].
    destruct (0 <? length X')%nat eqn:Hpos; [|discriminate].
    intros [= <- <-]. apply Nat.ltb_lt in Hpos.
    split; [intros ->; cbn in Hpos; lia|]. split; [|reflexivity].
    apply load_data_loop in Hload.
    destruct (fs W dataset_path) as [| |entries];
      try (inversion Hload; reflexivity).
    destruct (load_loop_invariant W dataset_path 128
                (filter (is_image_file W) entries) ([], []))
      as (X0 & y0 & E & Hlen & _).
    rewrite <- Hload in E. cbn in E. now inversion E.
Qed.

End BuilderMore.

Section BuilderMoreScenarios.
Import Preprocessing.

Local Open Scope Z_scope.

Lemma load_data_aligned_witness :
  load_data demo_world "data" 128 = Some ([(128, 128); (128, 128)], [0; 1]) /\
  exists kept,
    subseq kept [ "reading_01.jpg"; "running_02.jpg"; "unknown_03.jpg";
                  "Cooking_04.PNG"; "sleeping_05.jpeg" ]%string /\
    Forall2 (decoded_as demo_world "data" 128) kept [(128, 128); (128, 128)] /\
    Forall2 (fun f l => label_of demo_world f = Some l) kept [0; 1].
Proof.
  split; [reflexivity|].
  exact (load_data_aligned demo_world "data" 128
           [ "reading_01.jpg"; "running_02.jpg"; "unknown_03.jpg";
             "Cooking_04.PNG"; "sleeping_05.jpeg"; "notes.txt" ]%string
           [(128, 128); (128, 128)] [0; 1] eq_refl eq_refl).
Defined.

Lemma load_data_labels_binary_witness :
  Forall (fun l => l = 0 \/ l = 1) [0; 1].
Proof.
  exact (load_data_labels_binary demo_world "data" 128
           [(128, 128); (128, 128)] [0; 1] eq_refl).
Defined.

Lemma resize_failure_skipped_witness :
  resize demo_world (480, 640) 0 = None /\
  load_loop demo_world "data" 0 ["reading_01.jpg"; "running_02.jpg"] ([], [])
  = load_loop demo_world "data" 0 ["running_02.jpg"] ([], []) /\
  load_data demo_world "data" 0 = Some ([], []).
Proof.
  destruct (resize_failure_skipped demo_world "data" 0) as (Hskip & Hall).
  split; [reflexivity|]. split.
  - exact (Hskip "reading_01.jpg"%string (480, 640) [] ["running_02.jpg"%string]
             ([], []) eq_refl eq_refl).
  - apply (Hall [ "reading_01.jpg"; "running_02.jpg"; "unknown_03.jpg";
                  "Cooking_04.PNG"; "sleeping_05.jpeg"; "notes.txt" ]%string eq_refl).
    intros img. reflexivity.
Defined.

Lemma is_image_file_spec_witness :
  is_image_file demo_world "Cooking_04.PNG" = true /\
  ~ (exists ext, In ext [".jpg"; ".jpeg"; ".png"]%string /\
                 PyStr.ends_with ext (lower demo_world "notes.txt")).
Proof.
  split.
  - apply (is_image_file_spec demo_world "Cooking_04.PNG").
    exists ".png"%string. split; [cbn; auto|]. now exists "cooking_04"%string.
  - intros H. apply (is_image_file_spec demo_world "notes.txt") in H.
    discriminate H.
Defined.

Lemma main_saves_nonempty_witness :
  main demo_world = Some None /\
  (main stanford_world = Some (Some ([(128, 128); (128, 128)], [1; 0])) /\
   length [(128, 128); (128, 128)] = length [1; 0]).
Proof.
  destruct (main_saves_nonempty demo_world) as (Hmissing & _ & _).
  destruct (main_saves_nonempty stanford_world) as (_ & _ & Hsaved).
  split; [exact (Hmissing eq_refl)|]. split; [reflexivity|].
  exact (proj1 (proj2 (Hsaved [(128, 128); (128, 128)] [1; 0] eq_refl))).
Defined.

End BuilderMoreScenarios.

(* ================================================================== *)
(** * Further properties of the trainer *)
(* ================================================================== *)

Section TrainerMore.
Import TrainModel.
Context (L : Sklearn).

(** Whenever [accuracy_score] has a value, it lies between 0 and 1. *)
Lemma accuracy_score_bounds (y_true y_pred : list Z) (q : Q) :
  accuracy_score y_true y_pred = Some q -> (0 <= q /\ q <= 1)%Q.
Proof.
  unfold accuracy_score.
  destruct (length y_true =? length y_pred)%nat; cbn [negb]; [|discriminate].
  pose proof (matches_le y_true y_pred) as Hm.
  destruct (length y_true) as [|n]; [discriminate|].
  intros [= <-]. unfold Qle. cbn. rewrite Zpos_P_of_succ_nat. lia.
Qed.

Lemma fold_accuracy_bounds features y fold q :
  fold_accuracy L features y fold = Some q -> (0 <= q /\ q <= 1)%Q.
Proof.
  unfold fold_accuracy. destruct fold as [train_index test_index].
  destruct (take_rows train_index features); [|discriminate].
  destruct (take_rows test_index features); [|discriminate].
  destruct (take_rows train_index y); [|discriminate].
  destruct (take_rows test_index y); [|discriminate].
  destruct (fit L 1000 _ _); [|discriminate].
  apply accuracy_score_bounds.
Qed.

(** The loop succeeds exactly with one accuracy per fold, appended in
    order. *)
Lemma cv_loop_some features y folds :
  forall accuracies out,
    cv_loop L features y folds accuracies = Some out ->
    exists accs,
      out = accuracies ++ accs /\
      map Some accs = map (fold_accuracy L features y) folds.
Proof.
  induction folds as [|fold folds IH]; intros accuracies out; cbn.
  - intros [= <-]. exists []. now rewrite app_nil_r.
  - destruct (fold_accuracy L features y fold) as [q|] eqn:Hq; [|discriminate].
    intros H. destruct (IH _ _ H) as (accs & -> & Hmap).
    exists (q :: accs). rewrite <- app_assoc. cbn. now rewrite Hmap.
Qed.

Lemma cv_loop_none features y folds :
  (exists fold, In fold folds /\ fold_accuracy L features y fold = None) ->
  forall accuracies, cv_loop L features y folds accuracies = None.
Proof.
  induction folds as [|fold folds IH]; intros (bad & Hin & Hbad) accuracies.
  - destruct Hin.
  - cbn. destruct Hin as [->|Hin].
    + now rewrite Hbad.
    + destruct (fold_accuracy L features y fold); [|reflexivity].
      apply IH. now exists bad.
Qed.

(** X7. Any failure is fatal and nothing is saved: the script ends
    without artifacts when the splitter raises, when the body of the loop
    raises for some fold, or when the final fit raises. *)
Theorem train_failure_fatal features y :
  (skf_split L 5 true 42 features y = None ->
   train_model L features y = None) /\
  (forall folds fold,
      skf_split L 5 true 42 features y = Some folds ->
      In fold folds -> fold_accuracy L features y fold = None ->
      train_model L features y = None) /\
  (fit L 1000 features y = None -> train_model L features y = None).
Proof.
  unfold train_model. split; [|split].
  - now intros ->.
  - intros folds fold -> Hin Hbad.
    rewrite cv_loop_none; [reflexivity|]. now exists fold.
  - intros Hfit. destruct (skf_split L 5 true 42 features y); [|reflexivity].
    destruct (cv_loop L features y l []); [|reflexivity]. now rewrite Hfit.
Qed.

(** X8. Whatever the library does, a run that completes has produced one
    accuracy per fold the splitter yielded, in order, each between 0 and
    1, and has saved the classifier fitted on all the data and the mean of
    all the features. *)
Theorem train_success_shape features y art :
  train_model L features y = Some art ->
  exists folds,
    skf_split L 5 true 42 features y = Some folds /\
    map Some (accuracies L art) = map (fold_accuracy L features y) folds /\
    length (accuracies L art) = length folds /\
    Forall (fun a => 0 <= a /\ a <= 1)%Q (accuracies L art) /\
    fit L 1000 features y = Some (saved_clf L art) /\
    saved_mean L art = mean_axis0 L features.
Proof.
  unfold train_model.
  destruct (skf_split L 5 true 42 features y) as [folds|]; [|discriminate].
  destruct (cv_loop L features y folds []) as [accs|] eqn:Hloop; [|discriminate].
  destruct (fit L 1000 features y) as [clf_final|]; [|discriminate].
  intros [= <-]. cbn.
  destruct (cv_loop_some _ _ _ _ _ Hloop) as (accs' & -> & Hmap). cbn [app].
  exists folds. repeat split; auto.
  - rewrite <- (length_map Some accs'), Hmap. apply length_map.
  - apply Forall_forall. intros q Hq.
    apply (in_map Some) in Hq. rewrite Hmap in Hq.
    apply in_map_iff in Hq as (fold & Hfold & _).
    now apply (fold_accuracy_bounds features y fold).
Qed.

End TrainerMore.

Section TrainerMoreScenarios.
Import TrainModel.

Lemma train_failure_fatal_witness :
  train_model toy_sklearn [1; 2; 3]%Z [0; 1; 0]%Z = None /\
  train_model strict_sklearn [1; 2; 3; 4; 5; 6; 7; 8; 9; 10]%Z
    [1; 0; 0; 0; 0; 0; 0; 0; 0; 0]%Z = None /\
  train_model strict_sklearn [1; 2; 3; 4; 5]%Z [1; 1; 1; 1; 1]%Z = None.
Proof.
  split; [|split].
  - apply (proj1 (train_failure_fatal toy_sklearn [1; 2; 3]%Z [0; 1; 0]%Z)).
    reflexivity.
  - apply (proj1 (proj2 (train_failure_fatal strict_sklearn
                           [1; 2; 3; 4; 5; 6; 7; 8; 9; 10]%Z
                           [1; 0; 0; 0; 0; 0; 0; 0; 0; 0]%Z))
             (round_robin 5 10) ([1; 2; 3; 4; 6; 7; 8; 9], [0; 5])%nat).
    + reflexivity.
    + cbn. auto.
    + reflexivity.
  - apply (proj2 (proj2 (train_failure_fatal strict_sklearn
                           [1; 2; 3; 4; 5]%Z [1; 1; 1; 1; 1]%Z))).
    reflexivity.
Defined.

Lemma train_success_shape_witness :
  exists art,
    train_model toy_sklearn [1; 2; 3; 4; 5; 6]%Z [0; 1; 0; 1; 1; 1]%Z = Some art /\
    length (accuracies toy_sklearn art) = 5%nat /\
    Forall (fun a => 0 <= a /\ a <= 1)%Q (accuracies toy_sklearn art).
Proof.
  destruct (train_model toy_sklearn [1; 2; 3; 4; 5; 6]%Z [0; 1; 0; 1; 1; 1]%Z)
    as [art|] eqn:E; [|discriminate E].
  exists art. split; [reflexivity|].
  destruct (train_success_shape toy_sklearn _ _ art E)
    as (folds & Hsplit & _ & Hlen & Hrange & _).
  split; [|exact Hrange].
  rewrite Hlen. injection Hsplit as <-. reflexivity.
Defined.

End TrainerMoreScenarios.

(* ================================================================== *)
(** * Further properties of the live page *)
(* ================================================================== *)

Section LiveMore.
Import Inference LiveVideo.
Context (L : Libs).

Local Open Scope Z_scope.

Lemma live_run_cons (r : option (Frame L)) reads (s : page L) :
  run L (r :: reads) s = run L reads (update_frame L r s).
Proof. reflexivity. Qed.

Lemma live_run_app reads1 reads2 (s : page L) :
  run L (reads1 ++ reads2) s = run L reads2 (run L reads1 s).
Proof. unfold run. apply fold_left_app. Qed.

Lemma frames_of_app reads1 reads2 :
  frames_of L (reads1 ++ reads2) = frames_of L reads1 ++ frames_of L reads2.
Proof. unfold frames_of. apply flat_map_app. Qed.

(** What one tick does to an open page, outcome by outcome. *)
Lemma live_update_frame_open (f : Frame L) (s : page L) :
  cap_opened s = true ->
  update_frame L (Some f) s
  = show_video L f
      (if models_loaded L then
         match classify L f with
         | Some pred => update_dashboard L pred s
         | None => prediction_error L s
         end
       else s).
Proof.
  intros Hc. unfold update_frame, models_loaded, classify. rewrite Hc. cbn [negb].
  destruct (clf L), (feature_extractor L); reflexivity.
Qed.

Lemma run_closed reads : forall s : page L, cap_opened s = false -> run L reads s = s.
Proof.
  induction reads as [|r reads IH]; intros s Hc; [reflexivity|].
  rewrite live_run_cons. unfold update_frame at 1. rewrite Hc. cbn [negb].
  now apply IH.
Qed.

(** X9. Every frame the camera delivers is displayed, once and in order,
    whatever the classifier does with it. *)
Theorem live_every_frame_shown (s : page L) reads :
  cap_opened s = true ->
  video_label (run L reads s) = video_label s ++ frames_of L reads.
Proof.
  revert s. induction reads as [|r reads IH]; intros s Hc.
  - cbn. now rewrite app_nil_r.
  - rewrite live_run_cons, IH by (now rewrite live_update_cap).
    destruct r as [f|].
    + rewrite (live_update_frame_open f s Hc).
      assert (E : forall s0 : page L,
                 video_label (show_video L f s0) = video_label s0 ++ [f])
        by reflexivity.
      rewrite E, <- app_assoc. cbn [frames_of flat_map app]. f_equal.
      destruct (models_loaded L); [|reflexivity].
      destruct (classify L f) as [pred|]; [|reflexivity].
      unfold update_dashboard. now destruct (pred =? 1).
    + unfold update_frame. rewrite Hc. reflexivity.
Qed.

(** X10. With the capture closed, because the camera did not open or
    because [closeEvent] released it, timer ticks change nothing at all;
    [closeEvent] itself keeps the counters. *)
Theorem live_closed_capture_inert :
  (forall (s : page L) reads, cap_opened s = false -> run L reads s = s) /\
  (forall reads, run L reads (init L false) = init L false) /\
  (forall (s : page L) reads,
      run L reads (closeEvent s) = closeEvent s /\
      active_count (closeEvent s) = active_count s /\
      idle_count (closeEvent s) = idle_count s).
Proof.
  split; [|split].
  - intros s reads. apply run_closed.
  - intros reads. now apply run_closed.
  - intros s reads. split; [now apply run_closed | now split].
Qed.

Lemma live_update_stats (r : option (Frame L)) (s : page L) :
  active_stats s = active_count s /\ idle_stats s = idle_count s ->
  active_stats (update_frame L r s) = active_count (update_frame L r s) /\
  idle_stats (update_frame L r s) = idle_count (update_frame L r s).
Proof.
  intros Hs. unfold update_frame. destruct (cap_opened s); cbn [negb]; [|exact Hs].
  destruct r as [f|]; [|exact Hs].
  destruct (clf L), (feature_extractor L); try exact Hs.
  destruct (try_predict L _ _ f) as [pred|]; [|exact Hs].
  unfold update_dashboard. destruct (pred =? 1); now split.
Qed.

(** X11. The two statistics labels never go stale: if they show the
    counters before a run of the loop they show them after it, and they do
    from the initial page on. *)
Theorem live_stats_mirror_counters :
  (forall (s : page L) reads,
      active_stats s = active_count s /\ idle_stats s = idle_count s ->
      active_stats (run L reads s) = active_count (run L reads s) /\
      idle_stats (run L reads s) = idle_count (run L reads s)) /\
  (forall camera reads,
      active_stats (run L reads (init L camera))
      = active_count (run L reads (init L camera)) /\
      idle_stats (run L reads (init L camera))
      = idle_count (run L reads (init L camera))).
Proof.
  assert (H : forall reads (s : page L),
             active_stats s = active_count s /\ idle_stats s = idle_count s ->
             active_stats (run L reads s) = active_count (run L reads s) /\
             idle_stats (run L reads s) = idle_count (run L reads s)).
  { induction reads as [|r reads IH]; intros s Hs; [exact Hs|].
    rewrite live_run_cons. apply IH. now apply live_update_stats. }
  split.
  - intros s reads. apply H.
  - intros camera reads. apply H. now split.
Qed.

Lemma live_update_counts (r : option (Frame L)) (s : page L) :
  cap_opened s = true ->
  active_count (update_frame L r s)
  = active_count s + Z.of_nat (length (filter (predicted_active L) (frames_of L [r]))) /\
  idle_count (update_frame L r s)
  = idle_count s + Z.of_nat (length (filter (predicted_idle L) (frames_of L [r]))).
Proof.
  intros Hc. destruct r as [f|].
  - rewrite (live_update_frame_open f s Hc). cbn [frames_of flat_map app filter].
    unfold predicted_active, predicted_idle, models_loaded, classify.
    destruct (clf L) as [c|], (feature_extractor L) as [e|]; cbn; try lia.
    destruct (try_predict L c e f) as [pred|]; cbn; [|lia].
    unfold update_dashboard. destruct (pred =? 1); cbn; lia.
  - unfold update_frame. rewrite Hc. cbn. lia.
Qed.

(** X12. Each counter counts its own class: after a run [active_count]
    has grown by the number of frames predicted 1 and [idle_count] by the
    number of frames given any other prediction; frames whose prediction
    raised are in neither. *)
Theorem live_counts_by_class (s : page L) reads :
  cap_opened s = true ->
  active_count (run L reads s)
  = active_count s
    + Z.of_nat (length (filter (predicted_active L) (frames_of L reads))) /\
  idle_count (run L reads s)
  = idle_count s
    + Z.of_nat (length (filter (predicted_idle L) (frames_of L reads))).
Proof.
  revert s. induction reads as [|r reads IH]; intros s Hc.
  - cbn. lia.
  - rewrite live_run_cons.
    destruct (IH (update_frame L r s)) as (Ha & Hi);
      [now rewrite live_update_cap|].
    destruct (live_update_counts r s Hc) as (Ha1 & Hi1).
    rewrite Ha, Hi, Ha1, Hi1.
    change (r :: reads) with ([r] ++ reads).
    rewrite frames_of_app, !filter_app, !length_app. lia.
Qed.

Lemma last_prediction_snoc fs (f : Frame L) :
  last_prediction L (fs ++ [f])
  = match classify L f with
    | Some pred => Some pred
    | None => last_prediction L fs
    end.
Proof. unfold last_prediction. rewrite fold_left_app. reflexivity. Qed.

(** X13. With the models loaded, the status text is that of the last
    frame read (active, idle or error), while the alert line is that of
    the last frame whose prediction succeeded: an error leaves the alert
    of the frame before it on the dashboard. *)
Theorem live_status_follows_last_frame (s : page L) reads :
  models_loaded L = true -> cap_opened s = true ->
  (forall f, pred_label (run L (reads ++ [Some f]) s) = text_of (classify L f)) /\
  alert_label (run L reads s)
  = match last_prediction L (frames_of L reads) with
    | Some pred => alert_of pred
    | None => alert_label s
    end.
Proof.
  intros Hm Hc. split.
  - intros f. rewrite live_run_app. cbn [run fold_left].
    assert (Hc' : cap_opened (run L reads s) = true).
    { clear f. revert s Hc. induction reads as [|r reads IH]; intros s Hc;
        [exact Hc|]. rewrite live_run_cons. apply IH. now rewrite live_update_cap. }
    rewrite (live_update_frame_open f _ Hc'), Hm.
    destruct (classify L f) as [pred|]; cbn; [|reflexivity].
    unfold update_dashboard. now destruct (pred =? 1).
  - induction reads as [|r reads IH] using rev_ind; [reflexivity|].
    rewrite live_run_app, frames_of_app. cbn [run fold_left].
    assert (Hc' : cap_opened (run L reads s) = true).
    { clear IH. revert s Hc. induction reads as [|r' reads IH]; intros s Hc;
        [exact Hc|]. rewrite live_run_cons. apply IH. now rewrite live_update_cap. }
    destruct r as [f|].
    + rewrite (live_update_frame_open f _ Hc'), Hm.
      cbn [frames_of flat_map]. rewrite app_nil_r, last_prediction_snoc.
      destruct (classify L f) as [pred|]; cbn.
      * unfold update_dashboard, alert_of. now destruct (pred =? 1).
      * exact IH.
    + unfold update_frame. rewrite Hc'. cbn. rewrite app_nil_r. exact IH.
Qed.

End LiveMore.

Section LiveMoreScenarios.
Import Inference LiveVideo.

Local Open Scope Z_scope.

Lemma live_every_frame_shown_witness :
  video_label (run stub_libs [Some 4; None; Some 13; Some (-1); Some 7]
                 (init stub_libs true))
  = [4; 13; -1; 7].
Proof.
  exact (live_every_frame_shown stub_libs (init stub_libs true)
           [Some 4; None; Some 13; Some (-1); Some 7] eq_refl).
Defined.

Lemma live_closed_capture_inert_witness :
  run stub_libs [Some 2; Some 3]
    (closeEvent (run stub_libs [Some 4] (init stub_libs true)))
  = closeEvent (run stub_libs [Some 4] (init stub_libs true)) /\
  run stub_libs [Some 2; Some 3] (init stub_libs false) = init stub_libs false.
Proof.
  destruct (live_closed_capture_inert stub_libs) as (Hclosed & _ & Hclose).
  split.
  - apply (Hclose (run stub_libs [Some 4] (init stub_libs true)) [Some 2; Some 3]).
  - apply (Hclosed (init stub_libs false) [Some 2; Some 3]). reflexivity.
Defined.

Lemma live_stats_mirror_counters_witness :
  let s := run stub_libs [Some 2; Some 13; Some 3; Some 4] (init stub_libs true) in
  active_stats s = active_count s /\ idle_stats s = idle_count s.
Proof.
  cbv zeta.
  apply (proj1 (live_stats_mirror_counters stub_libs) (init stub_libs true)
           [Some 2; Some 13; Some 3; Some 4]).
  split; reflexivity.
Defined.

Lemma live_counts_by_class_witness :
  let s := run stub_libs [Some 2; Some 13; Some 3; None; Some 4; Some 5; Some 7]
             (init stub_libs true) in
  active_count s = 0 + 2 /\ idle_count s = 0 + 3.
Proof.
  cbv zeta.
  exact (live_counts_by_class stub_libs (init stub_libs true)
           [Some 2; Some 13; Some 3; None; Some 4; Some 5; Some 7] eq_refl).
Defined.

Lemma live_status_follows_last_frame_witness :
  pred_label (run stub_libs ([Some 2] ++ [Some 13]) (init stub_libs true))
  = PredictionError /\
  alert_label (run stub_libs [Some 2; Some 13] (init stub_libs true))
  = StatusNormal.
Proof.
  destruct (live_status_follows_last_frame stub_libs (init stub_libs true)
              [Some 2] eq_refl eq_refl) as (Hlabel & _).
  destruct (live_status_follows_last_frame stub_libs (init stub_libs true)
              [Some 2; Some 13] eq_refl eq_refl) as (_ & Halert).
  split; [exact (Hlabel 13) | exact Halert].
Defined.

End LiveMoreScenarios.

(* ================================================================== *)
(** * Further properties of the worker thread *)
(* ================================================================== *)

Section WorkerMore.
Import Inference Mp4Video.
Context (L : Libs).

Local Open Scope Z_scope.

Lemma enumerate_from_in (rest : list (Frame L)) :
  forall fc i f,
    In (i, f) (enumerate_from L fc rest) <->
    fc <= i /\ nth_error rest (Z.to_nat (i - fc)) = Some f.
Proof.
  induction rest as [|frame rest IH]; intros fc i f; cbn [enumerate_from In].
  - split; [tauto|]. intros (_ & H). now destruct (Z.to_nat (i - fc)).
  - rewrite IH. split.
    + intros [E|(Hle & Hnth)].
      * inversion E; subst. rewrite Z.sub_diag. split; [lia|reflexivity].
      * split; [lia|].
        replace (Z.to_nat (i - fc)) with (S (Z.to_nat (i - (fc + 1)))) by lia.
        exact Hnth.
    + intros (Hle & Hnth). destruct (Z.eq_dec i fc) as [->|Hne].
      * left. rewrite Z.sub_diag in Hnth. cbn in Hnth. now inversion Hnth.
      * right. split; [lia|].
        replace (Z.to_nat (i - fc)) with (S (Z.to_nat (i - (fc + 1)))) in Hnth
          by lia.
        exact Hnth.
Qed.

(** X14. The worker emits [(frame, pred, number)] exactly for the frames
    of the file whose number is a multiple of 5, with the classifier's
    answer as prediction when there is one and 0 otherwise. *)
Theorem worker_emissions_by_index (video : list (Frame L)) f p i :
  In (f, p, i) (run L true video) <->
  0 <= i /\ i mod 5 = 0 /\ nth_error video (Z.to_nat i) = Some f /\
  p = match classify L f with Some pred => pred | None => 0 end.
Proof.
  rewrite run_spec, in_map_iff. unfold sampled_frames, emission_of. split.
  - intros ([j g] & E & Hin). cbn in E. inversion E; subst. clear E.
    apply filter_In in Hin as (Hin & Hmod). cbn in Hmod.
    apply enumerate_from_in in Hin as (Hle & Hnth).
    rewrite Z.sub_0_r in Hnth. apply Z.eqb_eq in Hmod.
    repeat split; auto. apply sampled_prediction_classify.
  - intros (Hle & Hmod & Hnth & ->). exists (i, f). cbn. split.
    + now rewrite sampled_prediction_classify.
    + apply filter_In. split.
      * apply enumerate_from_in. now rewrite Z.sub_0_r.
      * cbn. now apply Z.eqb_eq.
Qed.

Lemma worker_counts (sampled : list (Z * Frame L)) :
  length (filter (fun e : emission L => snd (fst e) =? 1)
                 (map (emission_of L) sampled))
  = length (filter (predicted_active L) (map snd sampled)) /\
  length (filter (fun e : emission L => negb (snd (fst e) =? 1))
                 (map (emission_of L) sampled))
  = (length (filter (predicted_idle L) (map snd sampled))
     + (length sampled - length (classified_ok L (map snd sampled))))%nat.
Proof.
  induction sampled as [|[i f] sampled (IHa & IHi)]; [now split|].
  pose proof (filter_length_le
                (fun f => match classify L f with Some _ => true | None => false end)
                (map snd sampled)) as Hle.
  rewrite length_map in Hle. fold (classified_ok L (map snd sampled)) in Hle.
  cbn [map filter emission_of fst snd]. unfold classified_ok in *.
  cbn [filter]. rewrite sampled_prediction_classify.
  unfold predicted_active, predicted_idle in *.
  destruct (classify L f) as [pred|]; [destruct (pred =? 1)|];
    cbn [negb length Z.eqb]; split; lia.
Qed.

(** X15. On the sampled frames the worker and the page agree on the
    active ones: the emissions with prediction 1 are as many as the page's
    [analyze_frame] would add to [active_count].  The worker's idle
    emissions are the frames the page would count as idle plus the frames
    the page would not count at all, its prediction having failed. *)
Theorem worker_agrees_with_page_on_active (video : list (Frame L)) (s : page L) :
  let sampled := map snd (sampled_frames L video) in
  let emitted := run L true video in
  active_count (analyze_all L sampled s)
  = active_count s
    + Z.of_nat (length (filter (fun e : emission L => snd (fst e) =? 1) emitted)) /\
  Z.of_nat (length (filter (fun e : emission L => negb (snd (fst e) =? 1)) emitted))
  = (idle_count (analyze_all L sampled s) - idle_count s)
    + Z.of_nat (length sampled - length (classified_ok L sampled)).
Proof.
  cbv zeta. rewrite run_spec.
  destruct (worker_counts (sampled_frames L video)) as (Ha & Hi).
  rewrite Ha, Hi. clear Ha Hi.
  assert (H : forall fs (s0 : page L),
    active_count (analyze_all L fs s0)
    = active_count s0 + Z.of_nat (length (filter (predicted_active L) fs)) /\
    idle_count (analyze_all L fs s0)
    = idle_count s0 + Z.of_nat (length (filter (predicted_idle L) fs))).
  { induction fs as [|f fs IH]; intros s0; [cbn; lia|].
    change (analyze_all L (f :: fs) s0)
      with (analyze_all L fs (analyze_frame L f s0)).
    destruct (IH (analyze_frame L f s0)) as (-> & ->).
    cbn [filter]. unfold predicted_active at 2, predicted_idle at 2.
    destruct (classify L f) as [pred|] eqn:Hp.
    - destruct (analyze_frame_ok L s0 f pred Hp) as (-> & -> & _).
      destruct (pred =? 1); cbn [negb length]; lia.
    - unfold analyze_frame. unfold classify in Hp.
      destruct (clf L), (feature_extractor L); try rewrite Hp; cbn; lia. }
  destruct (H (map snd (sampled_frames L video)) s) as (-> & ->).
  rewrite length_map. split; lia.
Qed.

End WorkerMore.

Section WorkerMoreScenarios.
Import Inference Mp4Video.

Local Open Scope Z_scope.

Lemma worker_emissions_by_index_witness :
  In (13, 0, 5) (run stub_libs true [0; 1; 2; 3; 4; 13; 6]) /\
  ~ In (6, 1, 6) (run stub_libs true [0; 1; 2; 3; 4; 13; 6]).
Proof.
  split.
  - apply (worker_emissions_by_index stub_libs [0; 1; 2; 3; 4; 13; 6] 13 0 5).
    repeat split; lia.
  - intros H.
    apply (worker_emissions_by_index stub_libs [0; 1; 2; 3; 4; 13; 6] 6 1 6) in H.
    destruct H as (_ & H & _). discriminate H.
Defined.

End WorkerMoreScenarios.

(* ================================================================== *)
(** * Further properties of the MP4 page *)
(* ================================================================== *)

Section PageEvents.
Import Inference Mp4Video.
Context (L : Libs).

Local Open Scope Z_scope.

Lemma advances_refl (s : page L) : advances L s s.
Proof.
  exists [], []. rewrite !app_nil_r. cbn. repeat split; try lia. constructor.
Qed.

Lemma advances_trans (s1 s2 s3 : page L) :
  advances L s1 s2 -> advances L s2 s3 -> advances L s1 s3.
Proof.
  intros (d & a & Hd & Ha & Hsub & Hact & Hidle)
         (d' & a' & Hd' & Ha' & Hsub' & Hact' & Hidle').
  exists (d ++ d'), (a ++ a').
  rewrite Hd', Hd, Ha', Ha, Hact', Hact, Hidle', Hidle.
  rewrite !app_assoc, !filter_app, !length_app.
  repeat split; try lia. now apply subseq_app.
Qed.

(** A step that touches neither the logs nor the counters. *)
Lemma advances_same (s s' : page L) :
  video_label s' = video_label s -> analyzed s' = analyzed s ->
  active_count s' = active_count s -> idle_count s' = idle_count s ->
  advances L s s'.
Proof.
  intros Hv Ha Hact Hidle. exists [], [].
  rewrite Hv, Ha, Hact, Hidle, !app_nil_r. cbn. repeat split; try lia.
  constructor.
Qed.

Lemma advances_display (f : Frame L) (s : page L) :
  advances L s (display_frame L f s).
Proof.
  exists [f], []. cbn. rewrite app_nil_r. repeat split; try lia.
  repeat constructor.
Qed.

(** Displaying a frame and then analyzing it, as [seek_frame] and
    [update_frame] do. *)
Lemma advances_display_analyze (f : Frame L) (s : page L) :
  advances L s (analyze_frame L f (display_frame L f s)).
Proof.
  unfold analyze_frame, advances, predicted_active, predicted_idle, classify.
  destruct (clf L) as [c|], (feature_extractor L) as [e|];
    try solve [exists [f], []; cbn; rewrite app_nil_r; repeat split; try lia;
               repeat constructor].
  destruct (try_predict L c e f) as [pred|] eqn:Hp;
    [destruct (pred =? 1) eqn:H1|];
    exists [f], [f]; cbn; rewrite Hp, ?H1; cbn; repeat split; try lia;
    apply subseq_refl.
Qed.

Lemma page_read_same (s s1 : page L) r :
  page_read L s = (r, s1) -> advances L s s1.
Proof.
  unfold page_read. destruct (cap s) as [c|].
  - destruct (cap_read L c) as [r' c']. intros [= <- <-].
    now apply advances_same.
  - intros [= <- <-]. apply advances_refl.
Qed.

Lemma page_set_pos_same (n : Z) (s : page L) : advances L s (page_set_pos L n s).
Proof. unfold page_set_pos. destruct (cap s); now apply advances_same. Qed.

Lemma seek_frame_advances (n : Z) (s : page L) : advances L s (seek_frame L n s).
Proof.
  unfold seek_frame. destruct (cap_is_open L s); [|apply advances_refl].
  destruct (page_read L _) as [[f|] s1] eqn:E.
  - eapply advances_trans; [|apply advances_display_analyze].
    eapply advances_trans; [|exact (page_read_same _ _ _ E)].
    eapply advances_trans; [apply (page_set_pos_same n)|].
    now apply advances_same.
  - eapply advances_trans; [|exact (page_read_same _ _ _ E)].
    eapply advances_trans; [apply (page_set_pos_same n)|].
    now apply advances_same.
Qed.

Lemma emit_valueChanged_advances signal (s : page L) :
  advances L s (emit_valueChanged L signal s).
Proof. destruct signal; [apply seek_frame_advances | apply advances_refl]. Qed.

Lemma slider_setValue_advances (v : Z) (s : page L) :
  advances L s (slider_setValue L v s).
Proof.
  unfold slider_setValue. destruct (QSlider.setValue v (frame_slider s)) as [sl sig].
  eapply advances_trans; [|apply emit_valueChanged_advances].
  now apply advances_same.
Qed.

Lemma slider_setMaximum_advances (m : Z) (s : page L) :
  advances L s (slider_setMaximum L m s).
Proof.
  unfold slider_setMaximum.
  destruct (QSlider.setMaximum m (frame_slider s)) as [sl sig].
  eapply advances_trans; [|apply emit_valueChanged_advances].
  now apply advances_same.
Qed.

Lemma load_video_advances c (s : page L) : advances L s (load_video L c s).
Proof.
  unfold load_video. destruct (cap_is_open L _); [|now apply advances_same].
  destruct (page_read L _) as [[f|] s1] eqn:E.
  - eapply advances_trans; [|apply page_set_pos_same].
    eapply advances_trans; [|apply advances_display].
    eapply advances_trans; [|exact (page_read_same _ _ _ E)].
    eapply advances_trans; [|apply slider_setMaximum_advances].
    now apply advances_same.
  - eapply advances_trans; [|exact (page_read_same _ _ _ E)].
    eapply advances_trans; [|apply slider_setMaximum_advances].
    now apply advances_same.
Qed.

Lemma stop_video_advances (s : page L) : advances L s (stop_video L s).
Proof.
  unfold stop_video. cbn [cap set_is_playing].
  destruct (cap s) as [c|]; [|now apply advances_same].
  destruct (page_read L _) as [[f|] s1] eqn:E.
  - eapply advances_trans; [|apply advances_display].
    eapply advances_trans; [|exact (page_read_same _ _ _ E)].
    eapply advances_trans; [|apply slider_setValue_advances].
    eapply advances_trans; [|apply advances_same; reflexivity].
    eapply advances_trans; [|apply (page_set_pos_same 0)].
    now apply advances_same.
  - eapply advances_trans; [|exact (page_read_same _ _ _ E)].
    eapply advances_trans; [|apply slider_setValue_advances].
    eapply advances_trans; [|apply advances_same; reflexivity].
    eapply advances_trans; [|apply (page_set_pos_same 0)].
    now apply advances_same.
Qed.

Lemma update_frame_advances (s : page L) : advances L s (update_frame L s).
Proof.
  unfold update_frame. destruct (cap_is_open L s && is_playing s);
    [|apply advances_refl].
  destruct (page_read L s) as [[f|] s1] eqn:E.
  - cbv zeta.
    match goal with
    | |- advances L s (if ?b then stop_video L ?x else ?x) =>
        apply (advances_trans s x);
          [|destruct b; [apply stop_video_advances | apply advances_refl]]
    end.
    eapply advances_trans; [|apply advances_display_analyze].
    eapply advances_trans; [|apply slider_setValue_advances].
    eapply advances_trans; [exact (page_read_same _ _ _ E)|].
    now apply advances_same.
  - eapply advances_trans; [exact (page_read_same _ _ _ E)|].
    apply stop_video_advances.
Qed.

Lemma handle_advances (e : event L) (s : page L) : advances L s (handle L e s).
Proof.
  destruct e as [[c|]| | |v| |]; cbn [handle upload_video].
  - apply load_video_advances.
  - apply advances_refl.
  - unfold toggle_play, play_video, pause_video.
    destruct (is_playing s); cbn [negb]; [now apply advances_same|].
    destruct (cap_is_open L s); [now apply advances_same | apply advances_refl].
  - apply stop_video_advances.
  - apply slider_setValue_advances.
  - apply update_frame_advances.
  - unfold closeEvent. destruct (cap s); [now apply advances_same|].
    apply advances_refl.
Qed.

Lemma handle_all_advances (es : list (event L)) :
  forall s : page L, advances L s (handle_all L es s).
Proof.
  induction es as [|e es IH]; intros s; [apply advances_refl|].
  change (handle_all L (e :: es) s) with (handle_all L es (handle L e s)).
  eapply advances_trans; [apply handle_advances | apply IH].
Qed.

(** X16. Whatever happens to the page (uploads, clicks, slider moves,
    timer ticks, closing), the counters change only by analyzed frames:
    from the new page on, [active_count] is the number of analyzed frames
    predicted 1 and [idle_count] the number of analyzed frames given
    another prediction. *)
Theorem mp4_counters_follow_analysis (es : list (event L)) :
  let s := handle_all L es (init L) in
  active_count s = Z.of_nat (length (filter (predicted_active L) (analyzed s))) /\
  idle_count s = Z.of_nat (length (filter (predicted_idle L) (analyzed s))).
Proof.
  cbv zeta.
  destruct (handle_all_advances es (init L)) as (d & a & _ & Ha & _ & Hact & Hidle).
  rewrite Hact, Hidle, Ha. cbn. split; reflexivity.
Qed.

(** X17. No event ever lowers a counter; in particular uploading another
    video does not reset the tally. *)
Theorem mp4_counters_never_decrease (es : list (event L)) (s : page L) :
  active_count s <= active_count (handle_all L es s) /\
  idle_count s <= idle_count (handle_all L es s).
Proof.
  destruct (handle_all_advances es s) as (d & a & _ & _ & _ & Hact & Hidle).
  rewrite Hact, Hidle. split; lia.
Qed.

(** X18. The page never analyzes a frame it has not displayed: the
    analyzed frames are, in order, among the displayed ones. *)
Theorem mp4_analyzes_only_displayed (es : list (event L)) :
  subseq (analyzed (handle_all L es (init L)))
         (video_label (handle_all L es (init L))).
Proof.
  destruct (handle_all_advances es (init L)) as (d & a & Hd & Ha & Hsub & _).
  rewrite Hd, Ha. exact Hsub.
Qed.

End PageEvents.

Section PageSteps.
Import Inference Mp4Video.
Context (L : Libs).

Local Open Scope Z_scope.

Lemma frame_at_nth (video : list (Frame L)) (n : nat) :
  frame_at L video (Z.of_nat n) = nth_error video n.
Proof.
  unfold frame_at. destruct (Z.ltb_spec (Z.of_nat n) 0); [lia|].
  now rewrite Nat2Z.id.
Qed.

Lemma qBound_inside (lo v hi : Z) : lo <= v <= hi -> QSlider.qBound lo v hi = v.
Proof. unfold QSlider.qBound. lia. Qed.

(** What [analyze_frame] leaves alone, field by field. *)
Lemma analyze_cap f (s : page L) : cap (analyze_frame L f s) = cap s.
Proof. apply (analyze_frame_frame L s f). Qed.

Lemma analyze_is_playing f (s : page L) :
  is_playing (analyze_frame L f s) = is_playing s.
Proof. apply (analyze_frame_frame L s f). Qed.

Lemma analyze_current_frame f (s : page L) :
  current_frame (analyze_frame L f s) = current_frame s.
Proof. apply (analyze_frame_frame L s f). Qed.

Lemma analyze_total_frames f (s : page L) :
  total_frames (analyze_frame L f s) = total_frames s.
Proof. apply (analyze_frame_frame L s f). Qed.

Lemma analyze_frame_slider f (s : page L) :
  frame_slider (analyze_frame L f s) = frame_slider s.
Proof. apply (analyze_frame_frame L s f). Qed.

Lemma analyze_video_label f (s : page L) :
  video_label (analyze_frame L f s) = video_label s.
Proof. apply (analyze_frame_frame L s f). Qed.

(** The log and the counters after [analyze_frame]. *)
Lemma analyze_analyzed f (s : page L) :
  analyzed (analyze_frame L f s)
  = analyzed s ++ (if models_loaded L then [f] else []).
Proof.
  unfold analyze_frame, models_loaded.
  destruct (clf L), (feature_extractor L); try now rewrite app_nil_r.
  destruct (try_predict L _ _ f) as [pred|]; [destruct (pred =? 1)|];
    reflexivity.
Qed.

Lemma analyze_active_count f (s : page L) :
  active_count (analyze_frame L f s)
  = active_count s + (if predicted_active L f then 1 else 0).
Proof.
  unfold analyze_frame, predicted_active, classify.
  destruct (clf L), (feature_extractor L); try (cbn; lia).
  destruct (try_predict L _ _ f) as [pred|]; [destruct (pred =? 1)|];
    cbn; lia.
Qed.

Lemma analyze_idle_count f (s : page L) :
  idle_count (analyze_frame L f s)
  = idle_count s + (if predicted_idle L f then 1 else 0).
Proof.
  unfold analyze_frame, predicted_idle, classify.
  destruct (clf L), (feature_extractor L); try (cbn; lia).
  destruct (try_predict L _ _ f) as [pred|]; [destruct (pred =? 1)|];
    cbn; lia.
Qed.

(** X20. Loading a file with at least one frame, with the slider at 0,
    shows the first frame and rewinds: the capture is at frame 0, the
    slider ranges over the frame numbers, nothing is analyzed or counted;
    [is_playing] and [current_frame] are not touched. *)
Theorem load_video_fresh (s : page L) v0 rest :
  QSlider.minimum (frame_slider s) = 0 ->
  QSlider.value (frame_slider s) = 0 ->
  let video := v0 :: rest in
  let s' := load_video L (open_file L video) s in
  cap s' = Some (open_file L video) /\
  total_frames s' = Z.of_nat (length video) /\
  frame_slider s' = {| QSlider.minimum := 0;
                       QSlider.maximum := Z.of_nat (length video) - 1;
                       QSlider.value := 0 |} /\
  video_label s' = video_label s ++ [v0] /\
  analyzed s' = analyzed s /\
  active_count s' = active_count s /\ idle_count s' = idle_count s /\
  is_playing s' = is_playing s /\ current_frame s' = current_frame s.
Proof.
  intros Hmin Hval. cbv zeta.
  destruct s as [cap0 pl cur tot ac ic lab [lo hi val] vl an]. cbn in Hmin, Hval.
  subst lo val.
  unfold load_video, slider_setMaximum, QSlider.setMaximum, QSlider.setValue.
  cbn -[Z.of_nat Z.sub Z.min Z.max QSlider.qBound].
  rewrite (Z.min_l 0) by lia.
  rewrite (Z.max_r 0) by lia.
  rewrite qBound_inside by lia.
  cbn -[Z.of_nat Z.sub]. repeat split.
Qed.

(** X21. [stop_video] does not leave the file at its first frame.  On an
    open file of at least two frames it resets [current_frame] and the
    slider to 0, but it reads past what it shows: when the slider was
    already at 0 it shows frame 0 and leaves the capture at frame 1; when
    the slider was elsewhere, the slider's signal seeks to frame 0, shows
    and analyzes it, then frame 1 is shown and the capture is left at
    frame 2. *)
Theorem stop_video_position (s : page L) c v0 v1 rest :
  cap s = Some c -> isOpened c = true -> frames c = v0 :: v1 :: rest ->
  QSlider.minimum (frame_slider s) <= 0 <= QSlider.maximum (frame_slider s) ->
  let s' := stop_video L s in
  is_playing s' = false /\ current_frame s' = 0 /\
  QSlider.value (frame_slider s') = 0 /\
  (QSlider.value (frame_slider s) = 0 ->
   (exists c', cap s' = Some c' /\ pos c' = 1) /\
   video_label s' = video_label s ++ [v0] /\
   analyzed s' = analyzed s) /\
  (QSlider.value (frame_slider s) <> 0 ->
   (exists c', cap s' = Some c' /\ pos c' = 2) /\
   video_label s' = video_label s ++ [v0; v1] /\
   analyzed s' = analyzed s ++ (if models_loaded L then [v0] else [])).
Proof.
  intros Hcap Hopen Hframes Hrange. cbv zeta.
  destruct s as [cap0 pl cur tot ac ic lab [lo hi val] vl an]. cbn in *. subst cap0.
  destruct c as [op fs fc p]. cbn in *. subst op fs.
  unfold stop_video, slider_setValue, QSlider.setValue.
  cbn -[analyze_frame QSlider.qBound].
  rewrite qBound_inside by lia.
  destruct (Z.eqb_spec 0 val) as [<-|Hne].
  - cbn -[analyze_frame]. repeat split; try (intros; lia).
    + eexists; split; reflexivity.
  - cbn -[analyze_frame]. unfold seek_frame. cbn -[analyze_frame].
    unfold page_read. rewrite analyze_cap. cbn -[analyze_frame].
    change (Pos.to_nat 1) with 1%nat. cbn -[analyze_frame].
    rewrite ?analyze_is_playing, ?analyze_current_frame,
            ?analyze_frame_slider, ?analyze_video_label, ?analyze_analyzed.
    cbn. repeat split; try (intros; lia).
    + eexists; split; reflexivity.
    + now rewrite <- app_assoc.
Qed.

End PageSteps.

Section PageStepsScenarios.
Import Inference Mp4Video.

Local Open Scope Z_scope.

Lemma load_video_fresh_witness :
  let s' := load_video stub_libs (open_file stub_libs [4; 5; 6]) (init stub_libs) in
  cap s' = Some (open_file stub_libs [4; 5; 6]) /\
  total_frames s' = 3 /\
  video_label s' = [4] /\ analyzed s' = [].
Proof.
  cbv zeta.
  destruct (load_video_fresh stub_libs (init stub_libs) 4 [5; 6] eq_refl eq_refl)
    as (Hcap & Htot & _ & Hv & Ha & _).
  split; [exact Hcap|]. split; [exact Htot|]. split; [exact Hv | exact Ha].
Defined.

Lemma stop_video_position_witness :
  let s1 := load_video stub_libs (open_file stub_libs [0; 1; 2; 3; 4])
              (init stub_libs) in
  let s2 := slider_setValue stub_libs 3 s1 in
  (QSlider.value (frame_slider s1) = 0 /\
   exists c', cap (stop_video stub_libs s1) = Some c' /\ pos c' = 1) /\
  (QSlider.value (frame_slider s2) <> 0 /\
   current_frame (stop_video stub_libs s2) = 0 /\
   exists c', cap (stop_video stub_libs s2) = Some c' /\ pos c' = 2).
Proof.
  cbv zeta. split.
  - split; [reflexivity|].
    destruct (stop_video_position stub_libs
                (load_video stub_libs (open_file stub_libs [0; 1; 2; 3; 4])
                   (init stub_libs))
                (open_file stub_libs [0; 1; 2; 3; 4])
                0 1 [2; 3; 4] eq_refl eq_refl eq_refl)
      as (_ & _ & _ & Hzero & _).
    + split; vm_compute; discriminate.
    + exact (proj1 (Hzero eq_refl)).
  - split; [discriminate|].
    destruct (stop_video_position stub_libs
                (slider_setValue stub_libs 3
                   (load_video stub_libs (open_file stub_libs [0; 1; 2; 3; 4])
                      (init stub_libs)))
                (cap_set_pos stub_libs 4 (open_file stub_libs [0; 1; 2; 3; 4]))
                0 1 [2; 3; 4] eq_refl eq_refl eq_refl)
      as (_ & Hcur & _ & _ & Hmoved).
    + split; vm_compute; discriminate.
    + split; [exact Hcur|]. apply Hmoved. discriminate.
Defined.

End PageStepsScenarios.

Section Playback.
Import Inference Mp4Video.
Context (L : Libs).

Local Open Scope Z_scope.

Local Ltac page_cbn :=
  cbn -[analyze_frame frame_at slider_setValue seek_frame stop_video
        Z.of_nat Z.add Z.sub].

(** A playback tick before the last frame, step by step. *)
Lemma tick_before_last video p c (s : page L) v w :
  playing_at L video p c s ->
  0 <= c -> c + 1 < Z.of_nat (length video) - 1 ->
  frame_at L video p = Some v -> frame_at L video (c + 1) = Some w ->
  let s' := update_frame L s in
  playing_at L video (c + 1 + 1) (c + 1) s' /\
  video_label s' = video_label s ++ [w; v] /\
  analyzed s' = analyzed s ++ (if models_loaded L then [w; v] else []) /\
  tally s'
  = tally s + Z.of_nat (length (classified_ok L [w; v])).
Proof.
  intros (Hcap & Hplay & Hcur & Htot & Hsl) Hc Hlt Hv Hw.
  destruct s as [cap0 pl cur tot ac ic lab sl vl an]. cbn in *. subst.
  unfold update_frame. cbn -[analyze_frame Z.of_nat Z.add Z.sub].
  rewrite Hv. cbn -[analyze_frame Z.of_nat Z.add Z.sub].
  unfold slider_setValue, QSlider.setValue.
  cbn -[analyze_frame Z.of_nat Z.add Z.sub].
  rewrite qBound_inside by lia.
  destruct (Z.eqb_spec (c + 1) c) as [E|_]; [lia|].
  cbn -[analyze_frame Z.of_nat Z.add Z.sub].
  unfold seek_frame. cbn -[analyze_frame Z.of_nat Z.add Z.sub].
  rewrite Hw. cbn -[analyze_frame Z.of_nat Z.add Z.sub].
  rewrite !analyze_current_frame, !analyze_total_frames.
  cbn -[analyze_frame Z.of_nat Z.add Z.sub].
  rewrite !analyze_current_frame, !analyze_total_frames.
  cbn -[analyze_frame Z.of_nat Z.add Z.sub].
  rewrite Z.geb_leb.
  destruct (Z.leb_spec (Z.of_nat (length video) - 1) (c + 1)) as [Hle|_]; [lia|].
  unfold playing_at, tally.
  repeat (rewrite ?analyze_cap, ?analyze_is_playing, ?analyze_current_frame,
            ?analyze_total_frames, ?analyze_frame_slider, ?analyze_video_label,
            ?analyze_analyzed, ?analyze_active_count, ?analyze_idle_count;
          cbn -[analyze_frame Z.of_nat Z.add Z.sub]).
  rewrite <- !app_assoc. repeat split.
  - now destruct (models_loaded L).
  - unfold classified_ok, predicted_active, predicted_idle. cbn [filter].
    destruct (classify L w) as [pw|]; destruct (classify L v) as [pv|];
      try destruct (pw =? 1); try destruct (pv =? 1); cbn; lia.
Qed.

(** The last tick of a playback: the two analyses of a tick, then
    [stop_video], whose [setValue(0)] seeks to frame 0 and analyzes it. *)
Lemma playback_last_tick video v0 v1 p c (s : page L) v w :
  frame_at L video 0 = Some v0 -> frame_at L video 1 = Some v1 ->
  playing_at L video p c s ->
  0 <= c -> c + 1 = Z.of_nat (length video) - 1 ->
  frame_at L video p = Some v -> frame_at L video (c + 1) = Some w ->
  let s' := update_frame L s in
  is_playing s' = false /\
  video_label s' = video_label s ++ [w; v; v0; v1] /\
  analyzed s' = analyzed s ++ (if models_loaded L then [w; v; v0] else []).
Proof.
  intros H0 H1 (Hcap & Hplay & Hcur & Htot & Hsl) Hc Hlast Hv Hw.
  destruct s as [cap0 pl cur tot ac ic lab sl vl an].
  cbn in Hcap, Hplay, Hcur, Htot, Hsl. subst.
  unfold update_frame. page_cbn.
  rewrite Hv. page_cbn.
  unfold slider_setValue, QSlider.setValue. page_cbn.
  rewrite qBound_inside by lia.
  destruct (Z.eqb_spec (c + 1) c) as [E|_]; [lia|]. page_cbn.
  unfold seek_frame. page_cbn.
  rewrite Hw. page_cbn.
  rewrite !analyze_current_frame, !analyze_total_frames. page_cbn.
  rewrite !analyze_current_frame, !analyze_total_frames. page_cbn.
  rewrite Z.geb_leb.
  destruct (Z.leb_spec (Z.of_nat (length video) - 1) (c + 1)) as [_|Hgt]; [|lia].
  unfold stop_video. page_cbn.
  repeat (rewrite ?analyze_cap; page_cbn).
  unfold page_set_pos. page_cbn.
  repeat (rewrite ?analyze_cap; page_cbn).
  unfold slider_setValue, QSlider.setValue. page_cbn.
  repeat (rewrite ?analyze_frame_slider; page_cbn).
  rewrite qBound_inside by lia.
  destruct (Z.eqb_spec 0 (c + 1)) as [E|_]; [lia|]. page_cbn.
  unfold seek_frame, cap_is_open. page_cbn.
  repeat (rewrite ?analyze_cap; page_cbn).
  unfold page_set_pos. page_cbn.
  repeat (rewrite ?analyze_cap; page_cbn).
  unfold page_read at 2. page_cbn.
  repeat (rewrite ?analyze_cap; page_cbn).
  rewrite H0. page_cbn.
  unfold page_read. page_cbn.
  repeat (rewrite ?analyze_cap; page_cbn).
  change (0 + 1) with 1. rewrite H1. page_cbn.
  repeat (rewrite ?analyze_cap, ?analyze_is_playing, ?analyze_video_label,
            ?analyze_analyzed; page_cbn).
  rewrite <- !app_assoc. repeat split.
  now destruct (models_loaded L).
Qed.

(** X23. A playback tick before the last frame analyzes two frames, not
    one: the slider's [valueChanged] makes [seek_frame] read, display and
    analyze the frame numbered [current_frame + 1], and then the tick
    displays and analyzes the frame it had read itself.  The capture is
    left just after the frame sought.  In an undisturbed playback the two
    are the same frame from the second tick on. *)
Theorem playback_tick_analyzes_twice video p c (s : page L) v w :
  playing_at L video p c s ->
  0 <= c -> c + 1 < Z.of_nat (length video) - 1 ->
  frame_at L video p = Some v -> frame_at L video (c + 1) = Some w ->
  let s' := update_frame L s in
  playing_at L video (c + 1 + 1) (c + 1) s' /\
  video_label s' = video_label s ++ [w; v] /\
  analyzed s' = analyzed s ++ (if models_loaded L then [w; v] else []) /\
  tally s'
  = tally s + Z.of_nat (length (classified_ok L [w; v])).
Proof. apply tick_before_last. Qed.


Lemma ticks_stopped n : forall s : page L, is_playing s = false -> ticks L n s = s.
Proof.
  induction n as [|n IH]; intros s Hs; [reflexivity|].
  cbn [ticks]. unfold update_frame at 1. rewrite Hs, andb_false_r. now apply IH.
Qed.

Lemma ticks_add n m (s : page L) : ticks L (n + m) s = ticks L m (ticks L n s).
Proof. revert s. induction n as [|n IH]; intros s; [reflexivity|]. apply IH. Qed.

Lemma ticks_advances n : forall s : page L, advances L s (ticks L n s).
Proof.
  induction n as [|n IH]; intros s; [apply advances_refl|].
  eapply advances_trans; [apply update_frame_advances | apply IH].
Qed.

Lemma playing_at_eq video p p' c c' (s : page L) :
  p = p' -> c = c' -> playing_at L video p c s -> playing_at L video p' c' s.
Proof. now intros -> ->. Qed.

(** The ticks between the first and the last one: each analyzes the next
    frame of the file twice. *)
Lemma steady_ticks video last mid :
  forall pre (s : page L),
    video = pre ++ mid ++ [last] -> pre <> [] ->
    playing_at L video (Z.of_nat (length pre)) (Z.of_nat (length pre) - 1) s ->
    let s' := ticks L (length mid) s in
    playing_at L video (Z.of_nat (length pre + length mid))
               (Z.of_nat (length pre + length mid) - 1) s' /\
    video_label s' = video_label s ++ flat_map (fun v => [v; v]) mid /\
    analyzed s'
    = analyzed s ++ (if models_loaded L then flat_map (fun v => [v; v]) mid else []).
Proof.
  induction mid as [|m mid IH]; intros pre s Hvideo Hpre Hs; cbv zeta.
  - cbn [length ticks flat_map]. rewrite Nat.add_0_r.
    split; [exact Hs|]. split; [now rewrite app_nil_r|].
    destruct (models_loaded L); now rewrite app_nil_r.
  - assert (Hlen : (1 <= length pre)%nat) by (destruct pre; [easy|cbn; lia]).
    assert (Hm : frame_at L video (Z.of_nat (length pre)) = Some m).
    { rewrite frame_at_nth, Hvideo, nth_error_app2, Nat.sub_diag by lia.
      reflexivity. }
    assert (HN : Z.of_nat (length video)
                 = Z.of_nat (length pre) + Z.of_nat (length mid) + 2).
    { rewrite Hvideo, !length_app. cbn [length]. lia. }
    destruct (tick_before_last video (Z.of_nat (length pre))
                (Z.of_nat (length pre) - 1) s m m Hs) as (Hs1 & Hv1 & Ha1 & _);
      try lia.
    + exact Hm.
    + now replace (Z.of_nat (length pre) - 1 + 1) with (Z.of_nat (length pre)) by lia.
    + cbn [ticks length].
      destruct (IH (pre ++ [m]) (update_frame L s)) as (Hs2 & Hv2 & Ha2).
      * rewrite Hvideo, <- app_assoc. reflexivity.
      * now destruct pre.
      * eapply playing_at_eq; [| |exact Hs1]; rewrite length_app; cbn [length]; lia.
      * split; [|split].
        -- eapply playing_at_eq; [| |exact Hs2];
             rewrite !length_app; cbn [length]; lia.
        -- rewrite Hv2, Hv1, <- app_assoc. reflexivity.
        -- rewrite Ha2, Ha1, <- app_assoc.
           now destruct (models_loaded L).
Qed.

(** The page after upload and play. *)
Lemma playback_start v0 rest :
  let video := v0 :: rest in
  let s := play_video L (load_video L (open_file L video) (init L)) in
  playing_at L video 0 0 s /\ video_label s = [v0] /\ analyzed s = [].
Proof.
  cbv zeta. unfold load_video, slider_setMaximum, QSlider.setMaximum,
    QSlider.setValue, play_video.
  cbn -[Z.of_nat Z.sub Z.min Z.max QSlider.qBound].
  rewrite (Z.min_l 0) by lia. rewrite (Z.max_r 0) by lia.
  rewrite qBound_inside by lia.
  cbn -[Z.of_nat Z.sub]. repeat split.
Qed.

(** The ticks of a complete playback of a file of at least two frames. *)
Lemma playback_logs v0 v1 rest :
  let video := v0 :: v1 :: rest in
  let s := playback L video (length video - 1) in
  is_playing s = false /\
  video_label s = v0 :: playback_trace L video ++ [v1] /\
  analyzed s = (if models_loaded L then playback_trace L video else []).
Proof.
  cbv zeta. unfold playback.
  destruct (playback_start v0 (v1 :: rest)) as (Hs0 & Hv0 & Ha0).
  set (video := v0 :: v1 :: rest) in *.
  set (s0 := play_video L (load_video L (open_file L video) (init L))) in *.
  assert (H0 : frame_at L video 0 = Some v0) by reflexivity.
  assert (H1 : frame_at L video 1 = Some v1) by reflexivity.
  destruct rest as [|r0 rest0].
  - (* two frames: the first tick is the last *)
    change (length video - 1)%nat with 1%nat. cbn [ticks].
    destruct (playback_last_tick video v0 v1 0 0 s0 v0 v1 H0 H1 Hs0)
      as (Hplay & Hv & Ha); try reflexivity; try lia.
    rewrite Hplay, Hv, Ha, Hv0, Ha0. cbn. repeat split.
  - destruct (@exists_last _ (r0 :: rest0)) as (mid & last & Hrest);
      [discriminate|].
    assert (Hvideo : video = [v0; v1] ++ mid ++ [last])
      by (unfold video; now rewrite Hrest).
    assert (HN : length video = (length mid + 3)%nat).
    { rewrite Hvideo, !length_app. cbn [length]. lia. }
    replace (length video - 1)%nat with (1 + (length mid + 1))%nat by lia.
    cbn [ticks Nat.add]. rewrite ticks_add. cbn [ticks].
    destruct (tick_before_last video 0 0 s0 v0 v1 Hs0)
      as (Hs1 & Hv1 & Ha1 & _); try reflexivity; try lia.
    set (s1 := update_frame L s0) in *.
    destruct (steady_ticks video last mid [v0; v1] s1 Hvideo)
      as (Hs2 & Hv2 & Ha2); [discriminate|exact Hs1|].
    set (s2 := ticks L (length mid) s1) in *.
    assert (Hlast : frame_at L video (Z.of_nat (length [v0; v1] + length mid))
                    = Some last).
    { rewrite frame_at_nth, Hvideo, app_assoc, nth_error_app2
        by (rewrite length_app; lia).
      rewrite length_app, Nat.sub_diag. reflexivity. }
    destruct (playback_last_tick video v0 v1 _ _ s2 last last H0 H1 Hs2)
      as (Hplay & Hv & Ha).
    + cbn [length]. lia.
    + rewrite HN. cbn [length]. lia.
    + exact Hlast.
    + replace (Z.of_nat (length [v0; v1] + length mid) - 1 + 1)
        with (Z.of_nat (length [v0; v1] + length mid)) by lia.
      exact Hlast.
    + rewrite Hplay, Hv, Ha, Hv2, Ha2, Hv1, Ha1, Hv0, Ha0.
      unfold video, playback_trace. rewrite Hrest, flat_map_app.
      split; [reflexivity|]. split.
      * cbn [flat_map app]. repeat rewrite <- app_assoc. reflexivity.
      * destruct (models_loaded L); [|reflexivity].
        cbn [flat_map app]. repeat rewrite <- app_assoc. reflexivity.
Qed.

Lemma filter_classes (fs : list (Frame L)) :
  Forall (fun f => classify L f <> None) fs ->
  (length (filter (predicted_active L) fs)
   + length (filter (predicted_idle L) fs) = length fs)%nat.
Proof.
  induction 1 as [|f fs Hf _ IH]; [reflexivity|].
  cbn [filter]. unfold predicted_active at 1, predicted_idle at 1.
  destruct (classify L f) as [pred|]; [|now destruct Hf].
  destruct (pred =? 1); cbn [negb length]; lia.
Qed.

(** X24. A complete playback of a file of N >= 2 frames, from upload and
    play until the page stops itself, analyzes 2N - 1 frames: frame 1 and
    frame 0 at the first tick, every later frame twice, and frame 0 once
    more when [stop_video] moves the slider back.  The counters are those
    of this sequence, so with a classifier that answers on every frame the
    tally is 2N - 1.  Further ticks change nothing. *)
Theorem playback_analyzes_trace v0 v1 rest n :
  let video := v0 :: v1 :: rest in
  (length video - 1 <= n)%nat ->
  let s := playback L video n in
  is_playing s = false /\
  video_label s = v0 :: playback_trace L video ++ [v1] /\
  analyzed s = (if models_loaded L then playback_trace L video else []) /\
  active_count s
  = Z.of_nat (length (filter (predicted_active L) (analyzed s))) /\
  idle_count s
  = Z.of_nat (length (filter (predicted_idle L) (analyzed s))) /\
  (Forall (fun f => classify L f <> None) video ->
   tally s = 2 * Z.of_nat (length video) - 1).
Proof.
  cbv zeta. intros Hn.
  set (video := v0 :: v1 :: rest) in *.
  destruct (playback_logs v0 v1 rest) as (Hplay & Hv & Ha). fold video in Hplay, Hv, Ha.
  assert (E : playback L video n = playback L video (length video - 1)).
  { replace n with ((length video - 1) + (n - (length video - 1)))%nat by lia.
    unfold playback. rewrite ticks_add. now apply ticks_stopped. }
  rewrite E, Hplay, Hv, Ha.
  assert (Hadv : advances L (init L) (playback L video (length video - 1))).
  { unfold playback.
    eapply advances_trans; [|apply ticks_advances].
    eapply advances_trans; [apply load_video_advances|].
    unfold play_video. destruct (cap_is_open L _);
      [now apply advances_same | apply advances_refl]. }
  destruct Hadv as (d & a & _ & Hlog & _ & Hact & Hidle).
  cbn [analyzed init active_count idle_count app] in Hlog, Hact, Hidle.
  rewrite Ha in Hlog. subst a.
  split; [reflexivity|]. split; [reflexivity|]. split; [reflexivity|].
  split; [exact Hact|]. split; [exact Hidle|].
  intros Hok. unfold tally. rewrite Hact, Hidle.
  assert (Hm : models_loaded L = true).
  { inversion Hok as [|f fs Hf _]; subst. unfold classify, models_loaded in *.
    destruct (clf L), (feature_extractor L); try reflexivity; now destruct Hf. }
  rewrite Hm.
  assert (Htrace : Forall (fun f => classify L f <> None) (playback_trace L video)).
  { rewrite Forall_forall in *. intros f Hf. apply Hok.
    unfold video, playback_trace in Hf.
    apply in_app_or in Hf as [Hf|Hf].
    - cbn in Hf. cbn. tauto.
    - apply in_app_or in Hf as [Hf|Hf].
      + apply in_flat_map in Hf as (g & Hg & Hf). cbn in Hf.
        right. right. destruct Hf as [<-|[<-|[]]]; exact Hg.
      + cbn in Hf. cbn. tauto. }
  pose proof (filter_classes _ Htrace) as Hsum.
  assert (Hlen : length (playback_trace L video) = (2 * length video - 1)%nat).
  { unfold video, playback_trace. rewrite !length_app.
    rewrite (flat_map_constant_length (fun v => [v; v]) rest (c := 2))
      by reflexivity.
    cbn [length]. lia. }
  assert (Htwo : (2 <= length video)%nat) by (unfold video; cbn [length]; lia).
  lia.
Qed.

End Playback.

Section PlaybackScenarios.
Import Inference Mp4Video.

Local Open Scope Z_scope.

Lemma playback_tick_analyzes_twice_witness :
  let s := playback stub_libs (numbered_video 10) 1 in
  playing_at stub_libs (numbered_video 10) 2 1 s /\
  analyzed (update_frame stub_libs s) = analyzed s ++ [2; 2] /\
  tally (update_frame stub_libs s) = tally s + 1 + 1.
Proof.
  cbv zeta.
  assert (Hs : playing_at stub_libs (numbered_video 10) 2 1
                 (playback stub_libs (numbered_video 10) 1))
    by (repeat split).
  split; [exact Hs|].
  destruct (playback_tick_analyzes_twice stub_libs (numbered_video 10) 2 1
              (playback stub_libs (numbered_video 10) 1) 2 2 Hs)
    as (_ & _ & Ha & Ht); try reflexivity; try lia.
  split; [exact Ha | exact Ht].
Defined.

Lemma playback_analyzes_trace_witness :
  let s := playback stub_libs (numbered_video 10) 20 in
  is_playing s = false /\
  analyzed s = [1; 0; 2; 2; 3; 3; 4; 4; 5; 5; 6; 6; 7; 7; 8; 8; 9; 9; 0] /\
  tally s = 2 * 10 - 1.
Proof.
  cbv zeta.
  destruct (playback_analyzes_trace stub_libs 0 1 [2; 3; 4; 5; 6; 7; 8; 9] 20)
    as (Hplay & _ & Ha & _ & _ & Ht).
  - cbn. lia.
  - split; [exact Hplay|]. split; [exact Ha|]. apply Ht.
    repeat constructor; discriminate.
Defined.

End PlaybackScenarios.

Section ClosedPage.
Import Inference Mp4Video.
Context (L : Libs).

Local Open Scope Z_scope.

Lemma closed_seek (n : Z) (s : page L) :
  cap_is_open L s = false -> seek_frame L n s = s.
Proof. intros H. unfold seek_frame. now rewrite H. Qed.

Lemma closed_handle (e : event L) (s : page L) :
  cap_is_open L s = false -> not_upload L e ->
  cap_is_open L (handle L e s) = false /\
  video_label (handle L e s) = video_label s /\
  analyzed (handle L e s) = analyzed s /\
  active_count (handle L e s) = active_count s /\
  idle_count (handle L e s) = idle_count s.
Proof.
  intros Hclosed Hno.
  destruct e as [choice| | |v| |]; [destruct Hno| | | | |]; cbn [handle].
  - unfold toggle_play, play_video, pause_video. rewrite Hclosed.
    destruct (is_playing s); cbn [negb]; auto.
  - destruct s as [cap0 pl cur tot ac ic lab sl vl an].
    unfold cap_is_open in Hclosed. cbn in Hclosed.
    unfold stop_video, slider_setValue, QSlider.setValue. cbn.
    destruct cap0 as [[op fs fc p]|]; cbn in *; [subst op|auto].
    destruct (_ =? _); cbn; auto.
  - destruct s as [cap0 pl cur tot ac ic lab sl vl an].
    unfold cap_is_open in Hclosed. cbn in Hclosed.
    unfold slider_setValue, QSlider.setValue. cbn.
    destruct (_ =? _); cbn; auto.
    unfold seek_frame, cap_is_open. cbn. rewrite Hclosed. cbn. auto.
  - unfold update_frame. rewrite Hclosed. cbn [andb]. auto.
  - unfold closeEvent, cap_is_open in *.
    destruct (cap s) as [c|] eqn:Hcap; cbn; [auto|]. rewrite Hcap. auto.
Qed.

(** X25. A page whose capture is closed, because no file is loaded, the
    file did not open or the page was closed, is inert: clicks, slider
    moves and timer ticks display nothing, analyze nothing and leave the
    counters alone, until a new file is uploaded.  [closeEvent] puts the
    page in that state. *)
Theorem mp4_closed_page_inert :
  (forall s : page L, cap_is_open L (closeEvent L s) = false) /\
  (forall (es : list (event L)) (s : page L),
      cap_is_open L s = false -> Forall (not_upload L) es ->
      let s' := handle_all L es s in
      cap_is_open L s' = false /\
      video_label s' = video_label s /\ analyzed s' = analyzed s /\
      active_count s' = active_count s /\ idle_count s' = idle_count s).
Proof.
  split.
  - intros s. unfold closeEvent, cap_is_open.
    destruct (cap s) as [c|] eqn:Hcap; cbn; [reflexivity|]. now rewrite Hcap.
  - intros es s Hclosed Hall. revert s Hclosed.
    induction Hall as [|e es He _ IH]; intros s Hclosed; cbv zeta.
    + cbn. auto.
    + change (handle_all L (e :: es) s) with (handle_all L es (handle L e s)).
      destruct (closed_handle e s Hclosed He) as (Hc & Hv & Ha & Hact & Hidle).
      destruct (IH _ Hc) as (Hc' & Hv' & Ha' & Hact' & Hidle').
      rewrite Hv', Ha', Hact', Hidle'. auto.
Qed.

End ClosedPage.

Section ClosedPageScenario.
Import Inference Mp4Video.

Local Open Scope Z_scope.

Lemma mp4_closed_page_inert_witness :
  let s := closeEvent stub_libs (playback stub_libs (numbered_video 10) 3) in
  let s' := handle_all stub_libs
              [Timeout; SliderMoved 5; PlayClicked;
               Timeout; StopClicked] s in
  cap_is_open stub_libs s = false /\
  analyzed s' = analyzed s /\ active_count s' = active_count s.
Proof.
  cbv zeta.
  destruct (mp4_closed_page_inert stub_libs) as (Hclose & Hinert).
  split; [apply Hclose|].
  destruct (Hinert
              [Timeout; SliderMoved 5; PlayClicked;
               Timeout; StopClicked]
              (closeEvent stub_libs (playback stub_libs (numbered_video 10) 3)))
    as (_ & _ & Ha & Hact & _).
  - apply Hclose.
  - repeat constructor.
  - split; [exact Ha | exact Hact].
Defined.

End ClosedPageScenario.
